(** * meanshiftr: adaptive mean-shift mode finding over lidar point clouds

    A shallow embedding of the C++ sources
    [LittleFunctionsCollection.cpp], [littleFunctionsImproved.cpp],
    [MeanShift_Classical.cpp], [meanShiftClassic.cpp] and
    [meanShiftClassicImproved.cpp].

    The sources compute on C++ [double]s.  The functions are embedded once,
    over an interface [Double] that lists the arithmetic the sources use, and
    what is stated for every implementation of that interface holds of the
    sources on IEEE 754 doubles, not-a-number included.  Two implementations
    are given.  [binary64] is the arithmetic of the sources on the kernel's
    binary64 floats: it evaluates the code bit for bit on concrete inputs;
    [std::exp] and [std::hypot], which the kernel does not have, are its two
    arguments.  [R_Double] reads a [double] as the real number it denotes,
    with exact operations: it is used to follow the control flow of the
    drivers on concrete clouds where the weights call [std::exp]; values
    computed on it are exact where the sources round. *)

From Stdlib Require Import Reals QArith Qreals ZArith List Bool Lia Lra.
From Stdlib Require Import FunctionalExtensionality.
From Stdlib Require Floats Uint63.
Import ListNotations.

Set Implicit Arguments.

(** ** The arithmetic of the sources *)

(** The operations on [double] that the five source files use.  [lit] is a
    decimal literal ([0.5], [0.01], [-100.0]); [of_int] is the implicit
    conversion of an integer ([short], [int]) operand; [pow2 x] is
    [std::pow(x, 2.0)]; [leb] and [ltb] are [<=] and [<]. *)
Class Double (D : Type) : Type := {
  lit : Q -> D;
  of_int : Z -> D;
  add : D -> D -> D;
  sub : D -> D -> D;
  mul : D -> D -> D;
  div : D -> D -> D;
  dabs : D -> D;
  pow2 : D -> D;
  dsqrt : D -> D;
  dhypot : D -> D -> D;
  dexp : D -> D;
  leb : D -> D -> bool;
  ltb : D -> D -> bool
}.

Declare Scope dbl_scope.
Delimit Scope dbl_scope with dbl.
Infix "+" := add : dbl_scope.
Infix "-" := sub : dbl_scope.
Infix "*" := mul : dbl_scope.
Infix "/" := div : dbl_scope.
Infix "<=?" := leb : dbl_scope.
Infix "<?" := ltb : dbl_scope.
(** [a >= b] and [a > b] are [b <= a] and [b < a]. *)
Notation "a >=? b" := (leb b a) (at level 70) : dbl_scope.
Notation "a >? b" := (ltb b a) (at level 70) : dbl_scope.

(** ** LittleFunctionsCollection.cpp and littleFunctionsImproved.cpp *)

Section LittleFunctions.

Context {D : Type} `{Double D}.
Local Open Scope dbl_scope.

(** [std::min(a, b)]: [b] when [b < a], else [a]. *)
Definition dmin (a b : D) : D := if b <? a then b else a.

Definition InCylinder (x y z radius height centerX centerY centerZ : D)
  : bool :=
  (pow2 (x - centerX) + pow2 (y - centerY) <=? pow2 radius)
  && (z >=? (centerZ - (lit 0.5 * height)))
  && (z <=? (centerZ + (lit 0.5 * height))).

Definition VerticalDistance (height centerZ pointZ : D) : D :=
  let BottomDistance :=
    dabs ((centerZ - height / lit 4.0 - pointZ) / (height * lit 3.0 / lit 8.0))
  in
  let TopDistance :=
    dabs ((centerZ + height / of_int 2 - pointZ)
          / (height * lit 3.0 / lit 8.0))
  in
  dmin BottomDistance TopDistance.

Definition VerticalMask (height centerZ pointZ : D) : Z :=
  if (pointZ >=? centerZ - height / lit 4.0)
     && (pointZ <=? centerZ + height / lit 2.0)
  then 1%Z else 0%Z.

Definition EpanechnikovFunction (height centerZ pointZ : D) : D :=
  of_int (VerticalMask height centerZ pointZ)
  * (of_int 1 - pow2 (of_int 1 - VerticalDistance height centerZ pointZ)).

Definition GaussFunction (radius centerX centerY pointX pointY : D) : D :=
  let distance := dhypot (pointX - centerX) (pointY - centerY) in
  let normDistance := distance / radius in
  dexp (lit (-5.0) * pow2 normDistance).

Definition intersectsCylinder
  (pointX pointY pointZ cylinderRadius cylinderHeight
   centerX centerY centerZ : D) : bool :=
  let topHeight := centerZ + (lit 0.5 * cylinderHeight) in
  let bottomHeight := topHeight - cylinderHeight in
  (pow2 (pointX - centerX) + pow2 (pointY - centerY) <=? pow2 cylinderRadius)
  && (bottomHeight <=? pointZ) && (pointZ <=? topHeight).

Definition gauss (x : D) : D := dexp (lit (-5.0) * pow2 x).

Definition epanechnikov (x : D) : D := of_int 1 - pow2 x.

Definition calculateVerticalWeight
  (pointZ cylinderMiddleZ cylinderHeight : D) : D :=
  let relativeVerticalDistanceToCenter :=
    dabs (cylinderMiddleZ - pointZ) / (cylinderHeight * lit 0.5)
  in
  epanechnikov relativeVerticalDistanceToCenter.

Definition calculateHorizontalWeight
  (pointX pointY cylinderRadius centerX centerY : D) : D :=
  let relativeHorizontalDistanceToCenter :=
    dhypot (centerX - pointX) (centerY - pointY) / cylinderRadius
  in
  gauss relativeHorizontalDistanceToCenter.

End LittleFunctions.

(** ** Data of the drivers *)

(** A row of the three-column [NumericMatrix]: [pc(i, 0)], [pc(i, 1)],
    [pc(i, 2)]. *)
Record Point (D : Type) : Type := mkPoint { px : D; py : D; pz : D }.

(** The helper variables [sumx], [sumy], [sumz], [sump] of one scan. *)
Record Sums (D : Type) : Type :=
  mkSums { sumX : D; sumY : D; sumZ : D; sumP : D }.

(** The variables of the per-seed loop after one execution of its body, as
    the loop guard reads them. *)
Record Iter (D : Type) : Type :=
  mkIter { centroid : Point D; old : Point D; IterCounter : Z }.

(** The returned [DataFrame], column by column: the columns named ["X"],
    ["Y"], ["Z"], ["modeX"], ["modeY"], ["modeZ"]. *)
Record DataFrame (D : Type) : Type := mkDataFrame {
  colX : list D; colY : list D; colZ : list D;
  modeX : list D; modeY : list D; modeZ : list D
}.

(** The three [NumericVector]s [modesX], [modesY], [modesZ]. *)
Record Modes (D : Type) : Type :=
  mkModes { modesX : list D; modesY : list D; modesZ : list D }.

(** ** Control structure shared by the three drivers *)

Section Control.

Context {D : Type} `{Double D}.

(** [pc(i, _)]; every index the drivers use is below [pc.nrow()]. *)
Definition row (pc : list (Point D)) (i : nat) : Point D :=
  nth i pc (mkPoint (of_int 0) (of_int 0) (of_int 0)).

(** [v[i] = x]. *)
Fixpoint store (v : list D) (i : nat) (x : D) : list D :=
  match v, i with
  | [], _ => []
  | _ :: t, O => x :: t
  | h :: t, S i' => h :: store t i' x
  end.

(** [do { ... } while (guard)].  [body c k] runs the loop body from the
    centroid [c] and the counter [k], the two variables that live across
    iterations ([old*] and the sums are assigned before they are read).
    [fuel] bounds the executions of the body; the result carries their
    number. *)
Fixpoint do_while (body : Point D -> Z -> Iter D)
  (guard : Iter D -> bool) (fuel : nat) (c : Point D) (k : Z)
  : option (nat * Iter D) :=
  match fuel with
  | O => None
  | S fuel' =>
      let st := body c k in
      if guard st then
        match do_while body guard fuel' (centroid st) (IterCounter st) with
        | Some (n, st') => Some (S n, st')
        | None => None
        end
      else Some (1%nat, st)
  end.

(** [for (i = 0; i < nrows; i++) { ...; modesX[i] = centroidX; ... }] over the
    indices [idx], where [seed i] is the per-seed loop. *)
Fixpoint for_seeds (seed : nat -> option (nat * Iter D)) (idx : list nat)
  (m : Modes D) : option (Modes D) :=
  match idx with
  | [] => Some m
  | i :: rest =>
      match seed i with
      | None => None
      | Some (_, st) =>
          for_seeds seed rest
            (mkModes (store (modesX m) i (px (centroid st)))
                     (store (modesY m) i (py (centroid st)))
                     (store (modesZ m) i (pz (centroid st))))
      end
  end.

(** The body of a driver around its per-seed loop: three zero-filled vectors
    of length [nrows], the loop over the seeds, and the data frame. *)
Definition driver (seed : nat -> option (nat * Iter D))
  (pc : list (Point D)) : option (DataFrame D) :=
  let nrows := length pc in
  let zeros := repeat (of_int 0) nrows in
  match for_seeds seed (seq 0 nrows) (mkModes zeros zeros zeros) with
  | None => None
  | Some m =>
      Some (mkDataFrame (map (@px D) pc) (map (@py D) pc) (map (@pz D) pc)
                        (modesX m) (modesY m) (modesZ m))
  end.

(** [df] is the table of the cloud [pc] for the per-seed loop [seed]: six
    columns of [pc]'s length, the first three the columns of [pc], and in
    row [i] of the last three the centroid on which [seed i] ended. *)
Definition table_of (pc : list (Point D))
  (seed : nat -> option (nat * Iter D)) (df : DataFrame D) : Prop :=
  (length (colX df) = length pc /\ length (colY df) = length pc
   /\ length (colZ df) = length pc /\ length (modeX df) = length pc
   /\ length (modeY df) = length pc /\ length (modeZ df) = length pc)
  /\ (colX df = map (@px D) pc /\ colY df = map (@py D) pc
      /\ colZ df = map (@pz D) pc)
  /\ forall i, (i < length pc)%nat ->
       exists n st,
         seed i = Some (n, st)
         /\ nth_error (modeX df) i = Some (px (centroid st))
         /\ nth_error (modeY df) i = Some (py (centroid st))
         /\ nth_error (modeZ df) i = Some (pz (centroid st)).

(** The per-seed loop of seed [i] keeps to the budget: on every fuel that
    covers the budget it ends after the same [n] executions of [body], with
    [1 <= n <= budget], on the state the [n]-th execution produced, and the
    driver [run] puts the centroid of that state in row [i] of the table. *)
Definition ends_within_budget (body : Point D -> Z -> Iter D)
  (seed : nat -> nat -> option (nat * Iter D))
  (run : nat -> option (DataFrame D)) (budget : Z) (i : nat) : Prop :=
  exists n st,
    (1 <= n)%nat /\ (Z.of_nat n <= budget)%Z
    /\ IterCounter st = Z.of_nat n
    /\ (exists c, st = body c (Z.of_nat n - 1)%Z)
    /\ forall fuel, (Z.to_nat budget <= fuel)%nat ->
         seed fuel i = Some (n, st)
         /\ exists df,
              run fuel = Some df
              /\ nth_error (modeX df) i = Some (px (centroid st))
              /\ nth_error (modeY df) i = Some (py (centroid st))
              /\ nth_error (modeZ df) i = Some (pz (centroid st)).

End Control.

(** ** MeanShift_Classical.cpp *)

Section MeanShift_Classical.

Context {D : Type} `{Double D}.
Local Open Scope dbl_scope.

Variable pc : list (Point D).
Variables CD2TH_fac CH2TH_fac : D.
Variable MaxIter : Z.
Variable UniformKernel : bool.

(** The body of the inner [for] loop at one index: [j] is the row the three
    reads [pc(., 0..2)] name. *)
Definition MSC_visit (radius height : D) (c : Point D) (s : Sums D)
  (j : Point D) : Sums D :=
  let jx := px j in
  let jy := py j in
  let jz := pz j in
  if InCylinder jx jy jz radius height (px c) (py c) (pz c) then
    if UniformKernel then
      mkSums (sumX s + jx) (sumY s + jy) (sumZ s + jz) (sumP s + of_int 1)
    else
      let verticalweight := EpanechnikovFunction height (pz c) jz in
      let horizontalweight := GaussFunction radius (px c) (py c) jx jy in
      let weight := verticalweight * horizontalweight in
      mkSums (sumX s + weight * jx) (sumY s + weight * jy)
             (sumZ s + weight * jz) (sumP s + weight)
  else s.

(** [for (j = 0; j < nrows; j++)] of seed [i]: the source reads [pc(i, 0)],
    [pc(i, 1)], [pc(i, 2)] at every [j]. *)
Definition MSC_scan (i : nat) (radius height : D) (c : Point D) : Sums D :=
  fold_left (fun s (j : nat) => MSC_visit radius height c s (row pc i))
            (seq 0 (length pc))
            (mkSums (of_int 0) (of_int 0) (of_int 0) (of_int 0)).

(** The scan as the specification words it, for comparison with [MSC_scan]:
    at every [j] the candidate [pc(j, 0..2)] is visited. *)
Definition claimed_scan (radius height : D) (c : Point D) : Sums D :=
  fold_left (fun s (j : nat) => MSC_visit radius height c s (row pc j))
            (seq 0 (length pc))
            (mkSums (of_int 0) (of_int 0) (of_int 0) (of_int 0)).

Definition MSC_body (i : nat) (c : Point D) (k : Z) : Iter D :=
  let IterCounter' := (k + 1)%Z in
  let radius := CD2TH_fac * pz c * lit 0.5 in
  let height := CH2TH_fac * pz c in
  let s := MSC_scan i radius height c in
  mkIter (mkPoint (sumX s / sumP s) (sumY s / sumP s) (sumZ s / sumP s))
         c IterCounter'.

Definition MSC_guard (st : Iter D) : bool :=
  (dabs (px (centroid st) - px (old st)) <? lit 0.01)
  && (dabs (py (centroid st) - py (old st)) <? lit 0.01)
  && (dabs (pz (centroid st) - pz (old st)) <? lit 0.01)
  && (IterCounter st <? MaxIter)%Z.

Definition MSC_seed (fuel i : nat) : option (nat * Iter D) :=
  do_while (MSC_body i) MSC_guard fuel (row pc i) 0%Z.

Definition MeanShift_Classical (fuel : nat) : option (DataFrame D) :=
  driver (MSC_seed fuel) pc.

End MeanShift_Classical.

(** ** meanShiftClassic.cpp *)

Section meanShiftClassic.

Context {D : Type} `{Double D}.
Local Open Scope dbl_scope.

Variable pointCloud : list (Point D).
Variables crownDiameter2TreeHeight crownHeight2TreeHeight : D.
Variable maxNumCentroidsPerMode : Z.

Definition mSC_visit (radius height : D) (c : Point D) (s : Sums D)
  (j : Point D) : Sums D :=
  let pointX := px j in
  let pointY := py j in
  let pointZ := pz j in
  if InCylinder pointX pointY pointZ radius height (px c) (py c) (pz c) then
    let verticalWeight := EpanechnikovFunction height (pz c) pointZ in
    let horizontalWeight :=
      GaussFunction radius (px c) (py c) pointX pointY in
    let weight := verticalWeight * horizontalWeight in
    mkSums (sumX s + weight * pointX) (sumY s + weight * pointY)
           (sumZ s + weight * pointZ) (sumP s + weight)
  else s.

Definition mSC_scan (radius height : D) (c : Point D) : Sums D :=
  fold_left (fun s (j : nat) => mSC_visit radius height c s (row pointCloud j))
            (seq 0 (length pointCloud))
            (mkSums (lit 0.0) (lit 0.0) (lit 0.0) (lit 0.0)).

Definition mSC_body (c : Point D) (k : Z) : Iter D :=
  let numIterations := (k + 1)%Z in
  let radius := crownDiameter2TreeHeight * pz c * lit 0.5 in
  let height := crownHeight2TreeHeight * pz c in
  let s := mSC_scan radius height c in
  mkIter (mkPoint (sumX s / sumP s) (sumY s / sumP s) (sumZ s / sumP s))
         c numIterations.

(** The guard of both [meanShiftClassic] and [meanShiftClassicImproved]. *)
Definition euclid_guard (maxNum : Z) (st : Iter D) : bool :=
  (dsqrt (pow2 (px (centroid st) - px (old st))
          + pow2 (py (centroid st) - py (old st))
          + pow2 (pz (centroid st) - pz (old st))) >? lit 0.01)
  && (IterCounter st <? maxNum)%Z.

Definition mSC_seed (fuel i : nat) : option (nat * Iter D) :=
  do_while mSC_body (euclid_guard maxNumCentroidsPerMode) fuel
           (row pointCloud i) 0%Z.

Definition meanShiftClassic (fuel : nat) : option (DataFrame D) :=
  driver (mSC_seed fuel) pointCloud.

End meanShiftClassic.

(** ** meanShiftClassicImproved.cpp *)

Section meanShiftClassicImproved.

Context {D : Type} `{Double D}.
Local Open Scope dbl_scope.

Variable pointCloud : list (Point D).
Variables crownDiameter2TreeHeight crownHeight2TreeHeight : D.
Variable maxNumCentroidsPerMode : Z.

Definition mSCI_visit (cylinderRadius cylinderHeight cylinderMiddleZ : D)
  (c : Point D) (s : Sums D) (j : Point D) : Sums D :=
  let neighborX := px j in
  let neighborY := py j in
  let neighborZ := pz j in
  if intersectsCylinder neighborX neighborY neighborZ
       cylinderRadius cylinderHeight (px c) (py c) cylinderMiddleZ
  then
    let verticalweight :=
      calculateVerticalWeight neighborZ cylinderMiddleZ cylinderHeight in
    let horizontalweight :=
      calculateHorizontalWeight neighborX neighborY cylinderRadius
                                (px c) (py c) in
    let weight := verticalweight * horizontalweight in
    mkSums (sumX s + weight * neighborX) (sumY s + weight * neighborY)
           (sumZ s + weight * neighborZ) (sumP s + weight)
  else s.

Definition mSCI_scan (cylinderRadius cylinderHeight cylinderMiddleZ : D)
  (c : Point D) : Sums D :=
  fold_left
    (fun s (j : nat) =>
       mSCI_visit cylinderRadius cylinderHeight cylinderMiddleZ c s
                  (row pointCloud j))
    (seq 0 (length pointCloud))
    (mkSums (of_int 0) (of_int 0) (of_int 0) (of_int 0)).

Definition mSCI_body (c : Point D) (k : Z) : Iter D :=
  let numIterations := (k + 1)%Z in
  let cylinderRadius := crownDiameter2TreeHeight * pz c * lit 0.5 in
  let cylinderHeight := crownHeight2TreeHeight * pz c * lit 0.75 in
  let cylinderMiddleZ := pz c + cylinderHeight * lit 1.0 / lit 6.0 in
  let s := mSCI_scan cylinderRadius cylinderHeight cylinderMiddleZ c in
  mkIter (mkPoint (sumX s / sumP s) (sumY s / sumP s) (sumZ s / sumP s))
         c numIterations.

Definition mSCI_seed (fuel i : nat) : option (nat * Iter D) :=
  do_while mSCI_body (euclid_guard maxNumCentroidsPerMode) fuel
           (row pointCloud i) 0%Z.

Definition meanShiftClassicImproved (fuel : nat) : option (DataFrame D) :=
  driver (mSCI_seed fuel) pointCloud.

End meanShiftClassicImproved.

(** ** The real-number reading of [double] *)

Definition Rleb (x y : R) : bool := if Rle_dec x y then true else false.
Definition Rltb (x y : R) : bool := if Rlt_dec x y then true else false.

#[export] Instance R_Double : Double R := {
  lit := Q2R;
  of_int := IZR;
  add := Rplus;
  sub := Rminus;
  mul := Rmult;
  div := Rdiv;
  dabs := Rabs;
  pow2 := fun x => Rmult x x;
  dsqrt := sqrt;
  dhypot := fun x y => sqrt (Rplus (Rmult x x) (Rmult y y));
  dexp := exp;
  leb := Rleb;
  ltb := Rltb
}.

(** ** Example clouds *)

(** A cloud of one point, ten units above the ground. *)
Definition one_point : list (Point R) := [mkPoint 0%R 0%R 10%R].

(** Two points at the same height, one unit apart. *)
Definition two_points : list (Point R) :=
  [mkPoint 0%R 0%R 10%R; mkPoint 1%R 0%R 10%R].

(** The weight of a row that is the centre of the cylinder around it: 1 under
    the uniform kernel, else the vertical weight 8/9 times the horizontal
    weight 1. *)
Definition self_weight (UniformKernel : bool) : R :=
  if UniformKernel then 1%R else (8 / 9)%R.

(** ** The arithmetic of the sources on binary64 floats *)

(** The conversion of an integer operand to [double]; the integers of the
    sources are small. *)
Definition Z2F (z : Z) : PrimFloat.float :=
  match z with
  | Z0 => PrimFloat.zero
  | Zpos _ => PrimFloat.of_uint63 (Uint63.of_Z z)
  | Zneg p => PrimFloat.opp (PrimFloat.of_uint63 (Uint63.of_Z (Zpos p)))
  end.

(** The double a decimal literal denotes: the numerator and the denominator
    of the decimals used here are doubles, and their correctly rounded
    quotient is the double nearest to the decimal. *)
Definition dec (q : Q) : PrimFloat.float :=
  PrimFloat.div (Z2F (Qnum q)) (Z2F (Zpos (Qden q))).

(** The operations of the sources on doubles.  [std::pow(x, 2.0)] is the
    rounded square.  [std::exp] and [std::hypot] are the arguments
    [libm_exp] and [libm_hypot]. *)
Definition binary64 (libm_exp : PrimFloat.float -> PrimFloat.float)
  (libm_hypot : PrimFloat.float -> PrimFloat.float -> PrimFloat.float)
  : Double PrimFloat.float := {|
  lit := dec;
  of_int := Z2F;
  add := PrimFloat.add;
  sub := PrimFloat.sub;
  mul := PrimFloat.mul;
  div := PrimFloat.div;
  dabs := PrimFloat.abs;
  pow2 := fun x => PrimFloat.mul x x;
  dsqrt := PrimFloat.sqrt;
  dhypot := libm_hypot;
  dexp := libm_exp;
  leb := PrimFloat.leb;
  ltb := PrimFloat.ltb
|}.

(** [binary64] for the evaluation of code that calls neither [std::exp] nor
    [std::hypot]: the two arguments are never applied, and each evaluation
    below is also proved for every choice of them. *)
Definition binary64_no_libm : Double PrimFloat.float :=
  binary64 (fun _ => PrimFloat.nan) (fun _ _ => PrimFloat.nan).

(** A float is a zero of either sign. *)
Definition is_zero64 (x : PrimFloat.float) : bool :=
  PrimFloat.eqb x PrimFloat.zero.

(** Three points above the ground. *)
Definition three_points64 : list (Point PrimFloat.float) :=
  [mkPoint (dec 0.1) (dec 0.7) (dec 3.3);
   mkPoint (dec 5) (dec 5) (dec 5);
   mkPoint (dec 1) (dec 2) (dec 3)].

(** One point ten units above the ground, and one point one unit below it. *)
Definition one_point64 : list (Point PrimFloat.float) :=
  [mkPoint (dec 0) (dec 0) (dec 10)].

Definition point_below_ground64 : list (Point PrimFloat.float) :=
  [mkPoint (dec 1) (dec 2) (dec (-1))].

(** The state after the one scan of [meanShiftClassic] from the point of
    [point_below_ground64], with ratios 0.6 and 0.5. *)
Definition state_below_ground64 : Iter PrimFloat.float :=
  mSC_body (H:=binary64_no_libm) point_below_ground64 (dec 0.6) (dec 0.5)
           (row (H:=binary64_no_libm) point_below_ground64 0) 0.

(** The displacement sqrt(dx^2 + dy^2 + dz^2) that the guard of
    [meanShiftClassic] computes on a state. *)
Definition displacement64 (st : Iter PrimFloat.float) : PrimFloat.float :=
  PrimFloat.sqrt
    (PrimFloat.add
       (PrimFloat.add
          (PrimFloat.mul (PrimFloat.sub (px (centroid st)) (px (old st)))
                         (PrimFloat.sub (px (centroid st)) (px (old st))))
          (PrimFloat.mul (PrimFloat.sub (py (centroid st)) (py (old st)))
                         (PrimFloat.sub (py (centroid st)) (py (old st)))))
       (PrimFloat.mul (PrimFloat.sub (pz (centroid st)) (pz (old st)))
                      (PrimFloat.sub (pz (centroid st)) (pz (old st))))).

(** The centroid after an update that divided zero by zero. *)
Definition nowhere64 : Point PrimFloat.float :=
  mkPoint PrimFloat.nan PrimFloat.nan PrimFloat.nan.

(** [std::exp] and [std::hypot] at zero.  The C standard (Annex F) fixes
    exp(-0) = 1 and hypot(+0, +0) = +0; [exp_at_zero] and [hypot_at_zero]
    return these values there and call the library elsewhere, so that a run
    which calls the library at these arguments only can be evaluated. *)
Definition exp_at_zero (libm_exp : PrimFloat.float -> PrimFloat.float)
  (x : PrimFloat.float) : PrimFloat.float :=
  match FloatOps.Prim2SF x with
  | SpecFloat.S754_zero true => dec 1
  | _ => libm_exp x
  end.

Definition hypot_at_zero
  (libm_hypot : PrimFloat.float -> PrimFloat.float -> PrimFloat.float)
  (x y : PrimFloat.float) : PrimFloat.float :=
  match FloatOps.Prim2SF x, FloatOps.Prim2SF y with
  | SpecFloat.S754_zero false, SpecFloat.S754_zero false => PrimFloat.zero
  | _, _ => libm_hypot x y
  end.

(** [std::hypot] with a zero second argument: the C standard (Annex F) fixes
    hypot(x, +-0) = fabs(x). *)
Definition hypot_on_axis
  (libm_hypot : PrimFloat.float -> PrimFloat.float -> PrimFloat.float)
  (x y : PrimFloat.float) : PrimFloat.float :=
  match FloatOps.Prim2SF y with
  | SpecFloat.S754_zero _ => PrimFloat.abs x
  | _ => libm_hypot x y
  end.

(** The double 2^-700, whose square underflows to zero. *)
Definition tiny64 : PrimFloat.float := FloatOps.Z.ldexp (dec 1) (-700)%Z.

(** The double 2^1023, three times which overflows. *)
Definition huge64 : PrimFloat.float := FloatOps.Z.ldexp (dec 1) 1023%Z.
Unset Implicit Arguments.
Local Open Scope nat_scope.

(** * Control flow

    The facts of this part hold for every implementation of [Double]. *)

Section ControlFacts.

Context {D : Type} `{Double D}.

(** ** Vectors and rows *)

Lemma store_length (v : list D) (i : nat) (x : D) :
  length (store v i x) = length v.
Proof.
  revert i. induction v as [| h t IH]; intros [| i]; simpl; auto.
Qed.

Lemma nth_error_store_same (v : list D) (i : nat) (x : D) :
  i < length v -> nth_error (store v i x) i = Some x.
Proof.
  revert i. induction v as [| h t IH]; intros [| i] Hi; simpl in *;
    try lia; auto.
  apply IH. lia.
Qed.

Lemma nth_error_store_other (v : list D) (i j : nat) (x : D) :
  i <> j -> nth_error (store v i x) j = nth_error v j.
Proof.
  revert i j. induction v as [| h t IH]; intros [| i] [| j] Hij; simpl;
    try reflexivity; try congruence.
  apply IH. congruence.
Qed.

(** Reading the rows [0 .. nrows - 1] yields the cloud. *)
Lemma rows_of_cloud (pc : list (Point D)) :
  map (row pc) (seq 0 (length pc)) = pc.
Proof.
  induction pc as [| p pc IH]; [reflexivity |].
  cbn [length seq map]. f_equal.
  rewrite <- seq_shift, map_map. exact IH.
Qed.

Lemma fold_left_rows {A : Type} (f : A -> Point D -> A)
  (pc : list (Point D)) (a : A) :
  fold_left (fun s j => f s (row pc j)) (seq 0 (length pc)) a
  = fold_left f pc a.
Proof.
  assert (Hmap : forall (l : list nat) (b : A),
             fold_left (fun s j => f s (row pc j)) l b
             = fold_left f (map (row pc) l) b).
  { induction l as [| j l IH]; intros b; [reflexivity |]. simpl. apply IH. }
  rewrite Hmap, rows_of_cloud. reflexivity.
Qed.

(** ** The do-while loop *)

Section DoWhile.

Variable body : Point D -> Z -> Iter D.
Variable guard : Iter D -> bool.

(** More fuel does not change a result. *)
Lemma do_while_more_fuel (fuel : nat) :
  forall c k r, do_while body guard fuel c k = Some r ->
  forall fuel', fuel <= fuel' -> do_while body guard fuel' c k = Some r.
Proof.
  induction fuel as [| fuel IH]; intros c k r Hrun fuel' Hle;
    [discriminate |].
  destruct fuel' as [| fuel']; [lia |].
  simpl in *. destruct (guard (body c k)); [| exact Hrun].
  destruct (do_while body guard fuel (centroid (body c k))
              (IterCounter (body c k))) as [[n st] |] eqn:Hrec;
    [| discriminate].
  rewrite (IH _ _ _ Hrec fuel') by lia. exact Hrun.
Qed.

(** The loop ends on a state its body produced and its guard rejects. *)
Lemma do_while_exit (fuel : nat) :
  forall c k n st, do_while body guard fuel c k = Some (n, st) ->
  guard st = false /\ 1 <= n <= fuel /\ exists c' k', st = body c' k'.
Proof.
  induction fuel as [| fuel IH]; intros c k n st Hrun; [discriminate |].
  simpl in Hrun. destruct (guard (body c k)) eqn:Hg.
  - destruct (do_while body guard fuel (centroid (body c k))
                (IterCounter (body c k))) as [[n' st'] |] eqn:Hrec;
      [| discriminate].
    inversion Hrun; subst. apply IH in Hrec.
    destruct Hrec as [Hgf [Hn Hb]]. repeat split; auto; lia.
  - inversion Hrun; subst. repeat split; auto; try lia.
    exists c, k. reflexivity.
Qed.

(** Every body of the sources adds one to the counter ... *)
Hypothesis body_counts : forall c k, IterCounter (body c k) = (k + 1)%Z.

Lemma do_while_counter (fuel : nat) :
  forall c k n st, do_while body guard fuel c k = Some (n, st) ->
  IterCounter st = (k + Z.of_nat n)%Z.
Proof.
  induction fuel as [| fuel IH]; intros c k n st Hrun; [discriminate |].
  simpl in Hrun. destruct (guard (body c k)) eqn:Hg.
  - destruct (do_while body guard fuel (centroid (body c k))
                (IterCounter (body c k))) as [[n' st'] |] eqn:Hrec;
      [| discriminate].
    inversion Hrun; subst. apply IH in Hrec.
    rewrite Hrec, body_counts. lia.
  - inversion Hrun; subst. rewrite body_counts. lia.
Qed.

(** ... and every guard asks for a counter below the budget. *)
Variable budget : Z.
Hypothesis guard_budget :
  forall st, guard st = true -> (IterCounter st < budget)%Z.

Lemma do_while_terminates (fuel : nat) :
  forall c k, 1 <= fuel -> Z.to_nat (budget - k) <= fuel ->
  exists n st, do_while body guard fuel c k = Some (n, st).
Proof.
  induction fuel as [| fuel IH]; intros c k H1 Hfuel; [lia |].
  simpl. destruct (guard (body c k)) eqn:Hg; [| eauto].
  apply guard_budget in Hg. rewrite body_counts in Hg.
  destruct (IH (centroid (body c k)) (IterCounter (body c k)))
    as [n [st Hrec]]; [lia | rewrite body_counts; lia |].
  rewrite Hrec. eauto.
Qed.

Lemma do_while_within_budget (fuel : nat) :
  forall c k n st, do_while body guard fuel c k = Some (n, st) ->
  (Z.of_nat n <= Z.max 1 (budget - k))%Z.
Proof.
  induction fuel as [| fuel IH]; intros c k n st Hrun; [discriminate |].
  simpl in Hrun. destruct (guard (body c k)) eqn:Hg.
  - destruct (do_while body guard fuel (centroid (body c k))
                (IterCounter (body c k))) as [[n' st'] |] eqn:Hrec;
      [| discriminate].
    inversion Hrun; subst. apply IH in Hrec.
    apply guard_budget in Hg. rewrite body_counts in *. lia.
  - inversion Hrun; subst. lia.
Qed.

(** From counter 0 and a budget of at least 1, the loop halts with the same
    result on any fuel that covers the budget, after at most [budget]
    executions of its body, which the counter counts. *)
Lemma do_while_halts (c : Point D) :
  (1 <= budget)%Z ->
  exists n st,
    (forall fuel, Z.to_nat budget <= fuel ->
                  do_while body guard fuel c 0%Z = Some (n, st))
    /\ 1 <= n /\ (Z.of_nat n <= budget)%Z
    /\ IterCounter st = Z.of_nat n
    /\ guard st = false
    /\ exists c', st = body c' (Z.of_nat n - 1)%Z.
Proof.
  intros Hb.
  destruct (do_while_terminates (Z.to_nat budget) c 0%Z) as [n [st Hrun]];
    [lia | rewrite Z.sub_0_r; lia |].
  exists n, st.
  pose proof (do_while_exit _ _ _ _ _ Hrun) as [Hg [Hn [c' [k' Hst]]]].
  pose proof (do_while_counter _ _ _ _ _ Hrun) as Hcnt.
  pose proof (do_while_within_budget _ _ _ _ _ Hrun) as Hle.
  rewrite Z.sub_0_r in Hle.
  split; [intros fuel Hf; eapply do_while_more_fuel; eauto |].
  split; [lia |]. split; [lia |]. split; [lia |]. split; [exact Hg |].
  exists c'. rewrite Hst in Hcnt. rewrite body_counts in Hcnt.
  replace (Z.of_nat n - 1)%Z with k' by lia. exact Hst.
Qed.

End DoWhile.

(** A loop whose guard rejects the first state runs its body once. *)
Lemma do_while_once (body : Point D -> Z -> Iter D) (guard : Iter D -> bool)
  (fuel : nat) (c : Point D) (k : Z) :
  1 <= fuel -> guard (body c k) = false ->
  do_while body guard fuel c k = Some (1, body c k).
Proof.
  intros Hfuel Hg. destruct fuel as [| fuel]; [lia |].
  simpl. rewrite Hg. reflexivity.
Qed.

(** A loop whose body leaves the centroid [p] where it is and whose guard
    then only asks for a counter below the budget runs until the budget is
    used up. *)
Lemma do_while_stuck (body : Point D -> Z -> Iter D)
  (guard : Iter D -> bool) (budget : Z) (p : Point D) :
  (forall k, body p k = mkIter p p (k + 1)%Z) ->
  (forall k, guard (mkIter p p k) = (k <? budget)%Z) ->
  forall fuel k, 1 <= fuel -> Z.to_nat (budget - k) <= fuel ->
  do_while body guard fuel p k
  = Some (Z.to_nat (Z.max 1 (budget - k)),
          mkIter p p (k + Z.max 1 (budget - k))%Z).
Proof.
  intros Hbody Hguard.
  induction fuel as [| fuel IH]; intros k H1 Hfuel; [lia |].
  simpl. rewrite Hbody, Hguard. simpl.
  destruct (k + 1 <? budget)%Z eqn:Hk.
  - apply Z.ltb_lt in Hk. rewrite IH by lia.
    replace (Z.max 1 (budget - (k + 1))) with (budget - (k + 1))%Z by lia.
    replace (Z.max 1 (budget - k)) with (budget - k)%Z by lia.
    f_equal. f_equal; [lia |]. f_equal. lia.
  - apply Z.ltb_ge in Hk.
    replace (Z.max 1 (budget - k)) with 1%Z by lia. reflexivity.
Qed.

(** ** The loop over the seeds and the data frame *)

Lemma for_seeds_slots (seed : nat -> option (nat * Iter D)) :
  forall idx m,
  (forall i, In i idx -> seed i <> None) ->
  exists m',
    for_seeds seed idx m = Some m'
    /\ (length (modesX m') = length (modesX m)
        /\ length (modesY m') = length (modesY m)
        /\ length (modesZ m') = length (modesZ m))
    /\ (forall i n st, In i idx -> seed i = Some (n, st) ->
        (i < length (modesX m) ->
         nth_error (modesX m') i = Some (px (centroid st)))
        /\ (i < length (modesY m) ->
            nth_error (modesY m') i = Some (py (centroid st)))
        /\ (i < length (modesZ m) ->
            nth_error (modesZ m') i = Some (pz (centroid st))))
    /\ (forall i, ~ In i idx ->
        nth_error (modesX m') i = nth_error (modesX m) i
        /\ nth_error (modesY m') i = nth_error (modesY m) i
        /\ nth_error (modesZ m') i = nth_error (modesZ m) i).
Proof.
  induction idx as [| a rest IH]; intros m Hsome.
  - exists m. simpl. split; [reflexivity |]. split; [auto |].
    split; [intros i n st [] | auto].
  - simpl. destruct (seed a) as [[na sta] |] eqn:Ha;
      [| exfalso; apply (Hsome a); [left; reflexivity | exact Ha]].
    destruct (IH (mkModes (store (modesX m) a (px (centroid sta)))
                          (store (modesY m) a (py (centroid sta)))
                          (store (modesZ m) a (pz (centroid sta)))))
      as [m' [Hrun [[HlX [HlY HlZ]] [Hin Hout]]]].
    { intros i Hi. apply Hsome. right. exact Hi. }
    simpl in *. rewrite store_length in HlX, HlY, HlZ.
    exists m'. split; [exact Hrun |]. split; [auto |]. split.
    + intros i n st Hi Hseed.
      destruct (in_dec Nat.eq_dec i rest) as [Hrest | Hnot].
      * specialize (Hin i n st Hrest Hseed).
        rewrite !store_length in Hin. exact Hin.
      * destruct Hi as [Heq | Hi]; [subst i | contradiction].
        rewrite Ha in Hseed. inversion Hseed; subst.
        destruct (Hout a Hnot) as [HX [HY HZ]]. rewrite HX, HY, HZ.
        repeat split; intros Hlt; apply nth_error_store_same; exact Hlt.
    + intros i Hi.
      assert (Hai : a <> i) by (intros Heq; apply Hi; left; exact Heq).
      destruct (Hout i) as [HX [HY HZ]];
        [intros Hr; apply Hi; right; exact Hr |].
      rewrite HX, HY, HZ.
      repeat split; apply nth_error_store_other; exact Hai.
Qed.

(** A driver whose per-seed loops all end returns the table of the cloud. *)
Lemma driver_table (seed : nat -> option (nat * Iter D))
  (pc : list (Point D)) :
  (forall i, i < length pc -> seed i <> None) ->
  exists df, driver seed pc = Some df /\ table_of pc seed df.
Proof.
  intros Hsome. unfold driver.
  set (zeros := repeat (of_int 0) (length pc)).
  destruct (for_seeds_slots seed (seq 0 (length pc))
              (mkModes zeros zeros zeros))
    as [m [Hrun [[HlX [HlY HlZ]] [Hin _]]]].
  { intros i Hi. apply in_seq in Hi. apply Hsome. lia. }
  simpl in *. unfold zeros in HlX, HlY, HlZ, Hin.
  rewrite repeat_length in HlX, HlY, HlZ, Hin.
  rewrite Hrun. eexists. split; [reflexivity |].
  unfold table_of. simpl. rewrite !length_map.
  split; [repeat split; auto |]. split; [repeat split |].
  intros i Hi.
  destruct (seed i) as [[n st] |] eqn:Hseed;
    [| exfalso; exact (Hsome i Hi Hseed)].
  exists n, st. split; [reflexivity |].
  destruct (Hin i n st) as [HX [HY HZ]];
    [apply in_seq; lia | exact Hseed |].
  auto.
Qed.

(** When every per-seed loop ends on its own seed, the mode columns of the
    table repeat the coordinate columns. *)
Lemma table_of_fixed_seeds (seed : nat -> option (nat * Iter D))
  (pc : list (Point D)) (df : DataFrame D) :
  table_of pc seed df ->
  (forall i n st, i < length pc -> seed i = Some (n, st) ->
                  centroid st = row pc i) ->
  df = mkDataFrame (map (@px D) pc) (map (@py D) pc) (map (@pz D) pc)
                   (map (@px D) pc) (map (@py D) pc) (map (@pz D) pc).
Proof.
  intros [[_ [_ [_ [HlX [HlY HlZ]]]]] [[HX [HY HZ]] Hrows]] Hfix.
  assert (Hcol : forall (f : Point D -> D) (col : list D),
             length col = length pc ->
             (forall i, i < length pc ->
                        nth_error col i = Some (f (row pc i))) ->
             col = map f pc).
  { intros f col Hlen Hnth. apply nth_error_ext. intros i.
    destruct (Nat.lt_ge_cases i (length pc)) as [Hi | Hi].
    - rewrite (Hnth i Hi), nth_error_map.
      rewrite (nth_error_nth' pc (mkPoint (of_int 0) (of_int 0) (of_int 0)) Hi).
      reflexivity.
    - assert (Hn1 : nth_error col i = None)
        by (apply nth_error_None; lia).
      assert (Hn2 : nth_error (map f pc) i = None)
        by (apply nth_error_None; rewrite length_map; lia).
      congruence. }
  destruct df as [cX cY cZ mX mY mZ]. simpl in *. subst cX cY cZ.
  f_equal; apply Hcol; auto; intros i Hi;
    destruct (Hrows i Hi) as [n [st [Hseed [HmX [HmY HmZ]]]]];
    rewrite <- (Hfix i n st Hi Hseed); assumption.
Qed.

End ControlFacts.

(** ** The three drivers *)

Section DriverFacts.

Context {D : Type} `{Double D}.

Lemma MSC_guard_budget (MaxIter : Z) (st : Iter D) :
  MSC_guard MaxIter st = true -> (IterCounter st < MaxIter)%Z.
Proof.
  unfold MSC_guard. intros Hg. apply andb_true_iff in Hg.
  apply Z.ltb_lt. apply Hg.
Qed.

Lemma euclid_guard_budget (maxNum : Z) (st : Iter D) :
  euclid_guard maxNum st = true -> (IterCounter st < maxNum)%Z.
Proof.
  unfold euclid_guard. intros Hg. apply andb_true_iff in Hg.
  apply Z.ltb_lt. apply Hg.
Qed.

(** A per-seed loop whose body counts and whose guard asks for a counter
    below the budget keeps to the budget, and so does its driver. *)
Lemma loop_ends_within_budget (pc : list (Point D))
  (body : nat -> Point D -> Z -> Iter D) (guard : Iter D -> bool)
  (budget : Z) :
  (forall i c k, IterCounter (body i c k) = (k + 1)%Z) ->
  (forall st, guard st = true -> (IterCounter st < budget)%Z) ->
  (1 <= budget)%Z ->
  forall i, i < length pc ->
  ends_within_budget (body i)
    (fun fuel j => do_while (body j) guard fuel (row pc j) 0%Z)
    (fun fuel =>
       driver (fun j => do_while (body j) guard fuel (row pc j) 0%Z) pc)
    budget i.
Proof.
  intros Hcount Hbudget H1 i Hi.
  destruct (do_while_halts (body i) guard (Hcount i) budget Hbudget
              (row pc i) H1)
    as [n [st [Hrun [Hn1 [Hnb [Hcnt [_ Hlast]]]]]]].
  exists n, st. repeat (split; [assumption |]).
  intros fuel Hfuel. split; [apply Hrun, Hfuel |].
  destruct (driver_table
              (fun j => do_while (body j) guard fuel (row pc j) 0%Z) pc)
    as [df [Hdf [_ [_ Hrows]]]].
  { intros j Hj Hnone.
    destruct (do_while_halts (body j) guard (Hcount j) budget Hbudget
                (row pc j) H1) as [nj [stj [Hrunj _]]].
    rewrite (Hrunj fuel Hfuel) in Hnone. discriminate. }
  exists df. split; [exact Hdf |].
  destruct (Hrows i Hi) as [n' [st' [Hseed Hslots]]].
  rewrite (Hrun fuel Hfuel) in Hseed. inversion Hseed; subst. exact Hslots.
Qed.

(** The same loop on any fuel that covers the budget, whatever the budget:
    the driver returns the table of the cloud. *)
Lemma loop_returns_table (pc : list (Point D))
  (body : nat -> Point D -> Z -> Iter D) (guard : Iter D -> bool)
  (budget : Z) (fuel : nat) :
  (forall i c k, IterCounter (body i c k) = (k + 1)%Z) ->
  (forall st, guard st = true -> (IterCounter st < budget)%Z) ->
  1 <= fuel -> Z.to_nat budget <= fuel ->
  exists df,
    driver (fun j => do_while (body j) guard fuel (row pc j) 0%Z) pc = Some df
    /\ table_of pc (fun j => do_while (body j) guard fuel (row pc j) 0%Z) df.
Proof.
  intros Hcount Hbudget H1 Hfuel. apply driver_table.
  intros j Hj Hnone.
  destruct (do_while_terminates (body j) guard (Hcount j) budget Hbudget
              fuel (row pc j) 0%Z) as [n [st Hrun]];
    [exact H1 | rewrite Z.sub_0_r; exact Hfuel |].
  rewrite Hrun in Hnone. discriminate.
Qed.

(** *** What one scan reads *)

(** [meanShiftClassic] and [meanShiftClassicImproved] visit every row of the
    cloud once, in order, with the row's own coordinates. *)
Lemma mSC_scan_rows (pointCloud : list (Point D)) (radius height : D)
  (c : Point D) :
  mSC_scan pointCloud radius height c
  = fold_left (mSC_visit radius height c) pointCloud
              (mkSums (lit 0.0) (lit 0.0) (lit 0.0) (lit 0.0)).
Proof. unfold mSC_scan. apply fold_left_rows. Qed.

Lemma mSCI_scan_rows (pointCloud : list (Point D))
  (cylinderRadius cylinderHeight cylinderMiddleZ : D) (c : Point D) :
  mSCI_scan pointCloud cylinderRadius cylinderHeight cylinderMiddleZ c
  = fold_left (mSCI_visit cylinderRadius cylinderHeight cylinderMiddleZ c)
              pointCloud
              (mkSums (of_int 0) (of_int 0) (of_int 0) (of_int 0)).
Proof. unfold mSCI_scan. apply fold_left_rows. Qed.

(** [MeanShift_Classical] visits row [i], the seed, once for every row of
    the cloud. *)
Lemma MSC_scan_rows (pc : list (Point D)) (UniformKernel : bool) (i : nat)
  (radius height : D) (c : Point D) :
  MSC_scan pc UniformKernel i radius height c
  = fold_left (MSC_visit UniformKernel radius height c)
              (repeat (row pc i) (length pc))
              (mkSums (of_int 0) (of_int 0) (of_int 0) (of_int 0)).
Proof.
  unfold MSC_scan.
  generalize (mkSums (D:=D) (of_int 0) (of_int 0) (of_int 0) (of_int 0)).
  generalize 0 as a. induction (length pc) as [| n IH]; intros a s;
    [reflexivity |].
  simpl. apply IH.
Qed.

(** The visit of [meanShiftClassic] is that of [MeanShift_Classical] without
    the uniform kernel. *)
Lemma mSC_visit_MSC_visit (radius height : D) (c : Point D) (s : Sums D)
  (j : Point D) :
  mSC_visit radius height c s j = MSC_visit false radius height c s j.
Proof. reflexivity. Qed.

(** A row outside the cylinder leaves the sums as they are; a row inside adds
    its weight, and its coordinates times its weight. *)
Lemma mSC_visit_cases (radius height : D) (c : Point D) (s : Sums D)
  (j : Point D) :
  (InCylinder (px j) (py j) (pz j) radius height (px c) (py c) (pz c) = false
   -> mSC_visit radius height c s j = s)
  /\ (InCylinder (px j) (py j) (pz j) radius height (px c) (py c) (pz c)
      = true ->
      let weight :=
        mul (EpanechnikovFunction height (pz c) (pz j))
            (GaussFunction radius (px c) (py c) (px j) (py j)) in
      mSC_visit radius height c s j
      = mkSums (add (sumX s) (mul weight (px j)))
               (add (sumY s) (mul weight (py j)))
               (add (sumZ s) (mul weight (pz j)))
               (add (sumP s) weight)).
Proof.
  unfold mSC_visit. split; intros Hin; rewrite Hin; reflexivity.
Qed.

Lemma mSCI_visit_cases (cylinderRadius cylinderHeight cylinderMiddleZ : D)
  (c : Point D) (s : Sums D) (j : Point D) :
  (intersectsCylinder (px j) (py j) (pz j) cylinderRadius cylinderHeight
     (px c) (py c) cylinderMiddleZ = false ->
   mSCI_visit cylinderRadius cylinderHeight cylinderMiddleZ c s j = s)
  /\ (intersectsCylinder (px j) (py j) (pz j) cylinderRadius cylinderHeight
        (px c) (py c) cylinderMiddleZ = true ->
      let weight :=
        mul (calculateVerticalWeight (pz j) cylinderMiddleZ cylinderHeight)
            (calculateHorizontalWeight (px j) (py j) cylinderRadius
                                       (px c) (py c)) in
      mSCI_visit cylinderRadius cylinderHeight cylinderMiddleZ c s j
      = mkSums (add (sumX s) (mul weight (px j)))
               (add (sumY s) (mul weight (py j)))
               (add (sumZ s) (mul weight (pz j)))
               (add (sumP s) weight)).
Proof.
  unfold mSCI_visit. split; intros Hin; rewrite Hin; reflexivity.
Qed.

(** C9: for every cloud and every budget of at least 1, the per-seed loop of
    each driver ends after at most that many executions of its body, which
    the counter counts one by one; the centroid of the last execution is
    stored as the mode of the seed, whether the loop ended on its stopping
    rule or on its budget. *)
Theorem C9_budget_bounds_the_loop
  (pc : list (Point D)) (CD2TH_fac CH2TH_fac : D) (MaxIter : Z)
  (UniformKernel : bool) (i : nat) :
  (1 <= MaxIter)%Z -> i < length pc ->
  ends_within_budget (MSC_body pc CD2TH_fac CH2TH_fac UniformKernel i)
    (MSC_seed pc CD2TH_fac CH2TH_fac MaxIter UniformKernel)
    (MeanShift_Classical pc CD2TH_fac CH2TH_fac MaxIter UniformKernel)
    MaxIter i
  /\ ends_within_budget (mSC_body pc CD2TH_fac CH2TH_fac)
       (mSC_seed pc CD2TH_fac CH2TH_fac MaxIter)
       (meanShiftClassic pc CD2TH_fac CH2TH_fac MaxIter)
       MaxIter i
  /\ ends_within_budget (mSCI_body pc CD2TH_fac CH2TH_fac)
       (mSCI_seed pc CD2TH_fac CH2TH_fac MaxIter)
       (meanShiftClassicImproved pc CD2TH_fac CH2TH_fac MaxIter)
       MaxIter i.
Proof.
  intros H1 Hi. split; [| split].
  - apply (loop_ends_within_budget pc
             (MSC_body pc CD2TH_fac CH2TH_fac UniformKernel)
             (MSC_guard MaxIter) MaxIter); auto using MSC_guard_budget.
  - apply (loop_ends_within_budget pc
             (fun _ => mSC_body pc CD2TH_fac CH2TH_fac)
             (euclid_guard MaxIter) MaxIter); auto using euclid_guard_budget.
  - apply (loop_ends_within_budget pc
             (fun _ => mSCI_body pc CD2TH_fac CH2TH_fac)
             (euclid_guard MaxIter) MaxIter); auto using euclid_guard_budget.
Qed.

(** C10: for every cloud of n points, each driver returns a table of n rows
    whose first three columns are the coordinates of the cloud, row for row,
    and whose last three columns hold in row i the centroid on which the
    loop started from point i ended. *)
Theorem C10_rows_follow_the_input
  (pc : list (Point D)) (CD2TH_fac CH2TH_fac : D) (MaxIter : Z)
  (UniformKernel : bool) (fuel : nat) :
  1 <= fuel -> Z.to_nat MaxIter <= fuel ->
  (exists df,
     MeanShift_Classical pc CD2TH_fac CH2TH_fac MaxIter UniformKernel fuel
     = Some df
     /\ table_of pc
          (MSC_seed pc CD2TH_fac CH2TH_fac MaxIter UniformKernel fuel) df)
  /\ (exists df,
        meanShiftClassic pc CD2TH_fac CH2TH_fac MaxIter fuel = Some df
        /\ table_of pc (mSC_seed pc CD2TH_fac CH2TH_fac MaxIter fuel) df)
  /\ (exists df,
        meanShiftClassicImproved pc CD2TH_fac CH2TH_fac MaxIter fuel = Some df
        /\ table_of pc (mSCI_seed pc CD2TH_fac CH2TH_fac MaxIter fuel) df).
Proof.
  intros H1 Hfuel. split; [| split].
  - apply (loop_returns_table pc
             (MSC_body pc CD2TH_fac CH2TH_fac UniformKernel)
             (MSC_guard MaxIter) MaxIter fuel); auto using MSC_guard_budget.
  - apply (loop_returns_table pc
             (fun _ => mSC_body pc CD2TH_fac CH2TH_fac)
             (euclid_guard MaxIter) MaxIter fuel);
      auto using euclid_guard_budget.
  - apply (loop_returns_table pc
             (fun _ => mSCI_body pc CD2TH_fac CH2TH_fac)
             (euclid_guard MaxIter) MaxIter fuel);
      auto using euclid_guard_budget.
Qed.

End DriverFacts.

(** The second seed of [two_points] under a budget of 50. *)
Lemma C9_budget_bounds_the_loop_witness :
  ends_within_budget (MSC_body two_points 0.6%R 0.5%R false 1)
    (MSC_seed two_points 0.6%R 0.5%R 50 false)
    (MeanShift_Classical two_points 0.6%R 0.5%R 50 false) 50 1
  /\ ends_within_budget (mSC_body two_points 0.6%R 0.5%R)
       (mSC_seed two_points 0.6%R 0.5%R 50)
       (meanShiftClassic two_points 0.6%R 0.5%R 50) 50 1
  /\ ends_within_budget (mSCI_body two_points 0.6%R 0.5%R)
       (mSCI_seed two_points 0.6%R 0.5%R 50)
       (meanShiftClassicImproved two_points 0.6%R 0.5%R 50) 50 1.
Proof.
  apply (C9_budget_bounds_the_loop two_points 0.6%R 0.5%R 50%Z false 1).
  - lia.
  - unfold two_points. simpl. lia.
Defined.

(** [two_points] under a budget of 50, and under a budget of 0 with fuel for
    the one execution a do-while loop always makes. *)
Lemma C10_rows_follow_the_input_witness :
  (exists df,
     MeanShift_Classical two_points 0.6%R 0.5%R 50 false 50 = Some df
     /\ table_of two_points (MSC_seed two_points 0.6%R 0.5%R 50 false 50) df)
  /\ (exists df,
        meanShiftClassic two_points 0.6%R 0.5%R 0 1 = Some df
        /\ table_of two_points (mSC_seed two_points 0.6%R 0.5%R 0 1) df).
Proof.
  assert (H50 : 1 <= 50) by lia.
  assert (Hfuel50 : Z.to_nat 50 <= 50) by lia.
  assert (H1 : 1 <= 1) by lia.
  assert (Hfuel1 : Z.to_nat 0 <= 1) by lia.
  pose proof (C10_rows_follow_the_input two_points 0.6%R 0.5%R 50%Z false 50
                H50 Hfuel50) as [Hclassical _].
  pose proof (C10_rows_follow_the_input two_points 0.6%R 0.5%R 0%Z false 1
                H1 Hfuel1) as [_ [Hclassic _]].
  split; [exact Hclassical | exact Hclassic].
Defined.

(** ** The tests and guards as the sources evaluate them *)

Section AsComputed.

Context {D : Type} `{Double D}.

Lemma do_while_ext (body body' : Point D -> Z -> Iter D)
  (guard : Iter D -> bool) :
  (forall c k, body c k = body' c k) ->
  forall fuel c k,
  do_while body guard fuel c k = do_while body' guard fuel c k.
Proof.
  intros Hext. induction fuel as [| fuel IH]; intros c k; [reflexivity |].
  cbn [do_while]. rewrite Hext, IH. reflexivity.
Qed.

(** C3: the inner scan of [MeanShift_Classical] reads the seed's row
    pc(i, 0..2) at every index j, so the sums of every iteration are
    accumulated from the seed's row alone, once per row of the cloud, and
    the loop of seed i and its result depend on the cloud only through point
    i and the number of rows: two clouds of the same length with the same
    row i give seed i the same executions and the same mode, whatever their
    other rows. *)
Theorem C3_MeanShift_Classical_reads_the_seed_only
  (pc pc' : list (Point D)) (CD2TH_fac CH2TH_fac : D) (MaxIter : Z)
  (UniformKernel : bool) (i : nat) :
  length pc = length pc' -> row pc i = row pc' i ->
  (forall radius height c,
     MSC_scan pc UniformKernel i radius height c
     = fold_left (MSC_visit UniformKernel radius height c)
                 (repeat (row pc i) (length pc))
                 (mkSums (of_int 0) (of_int 0) (of_int 0) (of_int 0)))
  /\ (forall c k,
        MSC_body pc CD2TH_fac CH2TH_fac UniformKernel i c k
        = MSC_body pc' CD2TH_fac CH2TH_fac UniformKernel i c k)
  /\ (forall fuel,
        MSC_seed pc CD2TH_fac CH2TH_fac MaxIter UniformKernel fuel i
        = MSC_seed pc' CD2TH_fac CH2TH_fac MaxIter UniformKernel fuel i).
Proof.
  intros Hlen Hrow.
  assert (Hscan : forall radius height c,
             MSC_scan pc UniformKernel i radius height c
             = MSC_scan pc' UniformKernel i radius height c).
  { intros radius height c. rewrite !MSC_scan_rows, Hlen, Hrow.
    reflexivity. }
  assert (Hbody : forall c k,
             MSC_body pc CD2TH_fac CH2TH_fac UniformKernel i c k
             = MSC_body pc' CD2TH_fac CH2TH_fac UniformKernel i c k).
  { intros c k. unfold MSC_body. rewrite Hscan. reflexivity. }
  split; [intros radius height c; apply MSC_scan_rows |].
  split; [exact Hbody |].
  intros fuel. unfold MSC_seed. rewrite Hrow. apply do_while_ext.
  exact Hbody.
Qed.

(** In [meanShiftClassic] and [meanShiftClassicImproved] the body runs again
    exactly when, after the centroid update, the comparison
    sqrt(dx^2 + dy^2 + dz^2) > 0.01 on the computed doubles is true and the
    counter is below the maximum; with budget left the loop ends exactly
    when that comparison is false. *)
Lemma euclid_guard_as_computed
  (pointCloud : list (Point D))
  (crownDiameter2TreeHeight crownHeight2TreeHeight : D)
  (maxNumCentroidsPerMode : Z) (fuel : nat) (c : Point D) (k : Z) :
  let guard := euclid_guard maxNumCentroidsPerMode in
  let moved (st : Iter D) :=
    dsqrt (add (add (pow2 (sub (px (centroid st)) (px c)))
                    (pow2 (sub (py (centroid st)) (py c))))
               (pow2 (sub (pz (centroid st)) (pz c)))) in
  let loop_step (body : Point D -> Z -> Iter D) :=
    let st := body c k in
    (guard st = true <->
     ltb (lit 0.01) (moved st) = true /\ (k + 1 < maxNumCentroidsPerMode)%Z)
    /\ ((k + 1 < maxNumCentroidsPerMode)%Z ->
        (guard st = false <-> ltb (lit 0.01) (moved st) = false))
    /\ do_while body guard (S fuel) c k
       = if guard st then
           match do_while body guard fuel (centroid st) (k + 1) with
           | Some (n, st') => Some (S n, st')
           | None => None
           end
         else Some (1, st) in
  loop_step
    (mSC_body pointCloud crownDiameter2TreeHeight crownHeight2TreeHeight)
  /\ loop_step
       (mSCI_body pointCloud crownDiameter2TreeHeight crownHeight2TreeHeight).
Proof.
  intros guard moved loop_step.
  assert (Hany : forall body,
             (forall c' k', old (body c' k') = c'
                            /\ IterCounter (body c' k') = (k' + 1)%Z) ->
             loop_step body).
  { intros body Hbody. unfold loop_step.
    destruct (Hbody c k) as [Hold Hcnt].
    assert (Hg : guard (body c k)
                 = ltb (lit 0.01) (moved (body c k))
                   && (k + 1 <? maxNumCentroidsPerMode)%Z).
    { unfold guard, euclid_guard, moved. rewrite Hold, Hcnt. reflexivity. }
    split; [| split].
    - rewrite Hg, andb_true_iff, Z.ltb_lt. reflexivity.
    - intros Hk. apply Z.ltb_lt in Hk. rewrite Hg, Hk, andb_true_r.
      reflexivity.
    - cbn [do_while]. rewrite Hcnt. reflexivity. }
  split; apply Hany; intros c' k'; split; reflexivity.
Qed.

(** C6: [InCylinder] and [intersectsCylinder] return true exactly when three
    comparisons on the computed doubles hold, each of them inclusive: the
    sum of the squared horizontal offsets is at most the squared radius,
    the bottom is at most z, and z is at most centerZ + 0.5 * height.  The
    bottom is centerZ - 0.5 * height in [InCylinder] and
    (centerZ + 0.5 * height) - height in [intersectsCylinder]; where the two
    bottoms are the same double, the two tests agree. *)
Theorem C6_cylinder_membership_as_computed
  (x y z radius height centerX centerY centerZ : D) :
  let radial :=
    leb (add (pow2 (sub x centerX)) (pow2 (sub y centerY))) (pow2 radius) in
  let top := add centerZ (mul (lit 0.5) height) in
  (InCylinder x y z radius height centerX centerY centerZ = true <->
   radial = true
   /\ leb (sub centerZ (mul (lit 0.5) height)) z = true
   /\ leb z top = true)
  /\ (intersectsCylinder x y z radius height centerX centerY centerZ = true
      <-> radial = true /\ leb (sub top height) z = true /\ leb z top = true)
  /\ (sub top height = sub centerZ (mul (lit 0.5) height) ->
      intersectsCylinder x y z radius height centerX centerY centerZ
      = InCylinder x y z radius height centerX centerY centerZ).
Proof.
  intros radial top. unfold InCylinder, intersectsCylinder.
  fold radial. fold top. split; [| split].
  - rewrite !andb_true_iff. tauto.
  - rewrite !andb_true_iff. tauto.
  - intros Hbottom. rewrite Hbottom. reflexivity.
Qed.

(** [EpanechnikovFunction] is the mask times the parabola of the relative
    distance to the nearer end of the band; the mask is 1 when both
    comparisons with the ends of the band hold and 0 otherwise. *)
Lemma EpanechnikovFunction_as_computed (height centerZ pointZ : D) :
  let inside :=
    leb (sub centerZ (div height (lit 4.0))) pointZ
    && leb pointZ (add centerZ (div height (lit 2.0))) in
  let scale := div (mul height (lit 3.0)) (lit 8.0) in
  let distance :=
    dmin (dabs (div (sub (sub centerZ (div height (lit 4.0))) pointZ) scale))
         (dabs (div (sub (add centerZ (div height (of_int 2))) pointZ)
                    scale)) in
  VerticalMask height centerZ pointZ = (if inside then 1 else 0)%Z
  /\ VerticalDistance height centerZ pointZ = distance
  /\ EpanechnikovFunction height centerZ pointZ
     = mul (of_int (if inside then 1 else 0)%Z)
           (sub (of_int 1) (pow2 (sub (of_int 1) distance))).
Proof. repeat split. Qed.

(** A scan whose cylinder admits no visited row leaves the four sums at
    their initial zeros. *)
Lemma fold_left_fixed {A B : Type} (f : A -> B -> A) (l : list B) (s : A) :
  (forall x, In x l -> f s x = s) -> fold_left f l s = s.
Proof.
  induction l as [| x l IH]; intros Hf; [reflexivity |].
  cbn [fold_left]. rewrite (Hf x (or_introl eq_refl)).
  apply IH. intros y Hy. apply Hf. right. exact Hy.
Qed.

Lemma MSC_scan_nothing (pc : list (Point D)) (UniformKernel : bool)
  (i : nat) (radius height : D) (c : Point D) :
  InCylinder (px (row pc i)) (py (row pc i)) (pz (row pc i)) radius height
             (px c) (py c) (pz c) = false ->
  MSC_scan pc UniformKernel i radius height c
  = mkSums (of_int 0) (of_int 0) (of_int 0) (of_int 0).
Proof.
  intros Hout. unfold MSC_scan. apply fold_left_fixed. intros j _.
  unfold MSC_visit. rewrite Hout. reflexivity.
Qed.

Lemma mSC_scan_nothing (pc : list (Point D)) (radius height : D)
  (c : Point D) :
  (forall j, j < length pc ->
     InCylinder (px (row pc j)) (py (row pc j)) (pz (row pc j)) radius height
                (px c) (py c) (pz c) = false) ->
  mSC_scan pc radius height c
  = mkSums (lit 0.0) (lit 0.0) (lit 0.0) (lit 0.0).
Proof.
  intros Hout. unfold mSC_scan. apply fold_left_fixed. intros j Hj.
  apply in_seq in Hj. unfold mSC_visit. rewrite Hout by lia. reflexivity.
Qed.

Lemma mSCI_scan_nothing (pc : list (Point D)) (radius height middle : D)
  (c : Point D) :
  (forall j, j < length pc ->
     intersectsCylinder (px (row pc j)) (py (row pc j)) (pz (row pc j))
                        radius height (px c) (py c) middle = false) ->
  mSCI_scan pc radius height middle c
  = mkSums (of_int 0) (of_int 0) (of_int 0) (of_int 0).
Proof.
  intros Hout. unfold mSCI_scan. apply fold_left_fixed. intros j Hj.
  apply in_seq in Hj. unfold mSCI_visit. rewrite Hout by lia. reflexivity.
Qed.

(** The update after a scan that admitted nothing divides the initial zeros. *)
Lemma MSC_body_nothing (pc : list (Point D)) (CD2TH_fac CH2TH_fac : D)
  (UniformKernel : bool) (i : nat) (c : Point D) (k : Z) :
  InCylinder (px (row pc i)) (py (row pc i)) (pz (row pc i))
             (mul (mul CD2TH_fac (pz c)) (lit 0.5)) (mul CH2TH_fac (pz c))
             (px c) (py c) (pz c) = false ->
  MSC_body pc CD2TH_fac CH2TH_fac UniformKernel i c k
  = mkIter (mkPoint (div (of_int 0) (of_int 0)) (div (of_int 0) (of_int 0))
                    (div (of_int 0) (of_int 0)))
           c (k + 1).
Proof.
  intros Hout. unfold MSC_body. rewrite MSC_scan_nothing by exact Hout.
  reflexivity.
Qed.

Lemma mSC_body_nothing (pc : list (Point D))
  (crownDiameter2TreeHeight crownHeight2TreeHeight : D) (c : Point D)
  (k : Z) :
  (forall j, j < length pc ->
     InCylinder (px (row pc j)) (py (row pc j)) (pz (row pc j))
                (mul (mul crownDiameter2TreeHeight (pz c)) (lit 0.5))
                (mul crownHeight2TreeHeight (pz c))
                (px c) (py c) (pz c) = false) ->
  mSC_body pc crownDiameter2TreeHeight crownHeight2TreeHeight c k
  = mkIter (mkPoint (div (lit 0.0) (lit 0.0)) (div (lit 0.0) (lit 0.0))
                    (div (lit 0.0) (lit 0.0)))
           c (k + 1).
Proof.
  intros Hout. unfold mSC_body. rewrite mSC_scan_nothing by exact Hout.
  reflexivity.
Qed.

Lemma mSCI_body_nothing (pc : list (Point D))
  (crownDiameter2TreeHeight crownHeight2TreeHeight : D) (c : Point D)
  (k : Z) :
  (forall j, j < length pc ->
     intersectsCylinder
       (px (row pc j)) (py (row pc j)) (pz (row pc j))
       (mul (mul crownDiameter2TreeHeight (pz c)) (lit 0.5))
       (mul (mul crownHeight2TreeHeight (pz c)) (lit 0.75))
       (px c) (py c)
       (add (pz c)
            (div (mul (mul (mul crownHeight2TreeHeight (pz c)) (lit 0.75))
                      (lit 1.0))
                 (lit 6.0))) = false) ->
  mSCI_body pc crownDiameter2TreeHeight crownHeight2TreeHeight c k
  = mkIter (mkPoint (div (of_int 0) (of_int 0)) (div (of_int 0) (of_int 0))
                    (div (of_int 0) (of_int 0)))
           c (k + 1).
Proof.
  intros Hout. unfold mSCI_body. rewrite mSCI_scan_nothing by exact Hout.
  reflexivity.
Qed.

End AsComputed.

(** [two_points] and a cloud with another second row: the same loop for the
    first row. *)
Lemma C3_MeanShift_Classical_reads_the_seed_only_witness :
  MSC_seed two_points 0.6%R 0.5%R 200 false 200 0
  = MSC_seed [mkPoint 0%R 0%R 10%R; mkPoint 7%R 8%R 9%R] 0.6%R 0.5%R 200
             false 200 0.
Proof.
  assert (Hlen : length two_points
                 = length [mkPoint 0%R 0%R 10%R; mkPoint 7%R 8%R 9%R])
    by reflexivity.
  assert (Hrow : row two_points 0
                 = row [mkPoint 0%R 0%R 10%R; mkPoint 7%R 8%R 9%R] 0)
    by reflexivity.
  pose proof (C3_MeanShift_Classical_reads_the_seed_only two_points
                [mkPoint 0%R 0%R 10%R; mkPoint 7%R 8%R 9%R] 0.6%R 0.5%R
                200%Z false 0 Hlen Hrow) as [_ [_ Hseed]].
  exact (Hseed 200).
Defined.
(** * The sources in exact arithmetic

    The lemmas of this part are about [R_Double]. *)

Local Open Scope R_scope.

Lemma Rleb_true (x y : R) : Rleb x y = true <-> x <= y.
Proof. unfold Rleb. destruct (Rle_dec x y); split; intros; congruence. Qed.

Lemma Rleb_false (x y : R) : Rleb x y = false <-> y < x.
Proof.
  unfold Rleb. destruct (Rle_dec x y); split; intros; try congruence; lra.
Qed.

Lemma Rltb_true (x y : R) : Rltb x y = true <-> x < y.
Proof. unfold Rltb. destruct (Rlt_dec x y); split; intros; congruence. Qed.

Lemma Rltb_false (x y : R) : Rltb x y = false <-> y <= x.
Proof.
  unfold Rltb. destruct (Rlt_dec x y); split; intros; try congruence; lra.
Qed.

(** Unfolds the operations of [R_Double] and the decimal literals. *)
Ltac on_reals :=
  cbv [lit of_int add sub mul div dabs pow2 dsqrt dhypot dexp leb ltb
       R_Double Q2R Qnum Qden] in *.

(** Turns the boolean comparisons on [R] into propositions. *)
Ltac reflect_cmp :=
  repeat match goal with
  | H : _ && _ = true |- _ => apply andb_true_iff in H; destruct H
  | H : Rleb _ _ = true |- _ => apply Rleb_true in H
  | H : Rleb _ _ = false |- _ => apply Rleb_false in H
  | H : Rltb _ _ = true |- _ => apply Rltb_true in H
  | H : Rltb _ _ = false |- _ => apply Rltb_false in H
  | |- _ && _ = true => apply andb_true_iff; split
  | |- Rleb _ _ = true => apply Rleb_true
  | |- Rleb _ _ = false => apply Rleb_false
  | |- Rltb _ _ = true => apply Rltb_true
  | |- Rltb _ _ = false => apply Rltb_false
  end.

(** *** Membership in the cylinder *)

Lemma InCylinder_R (x y z radius height centerX centerY centerZ : R) :
  InCylinder x y z radius height centerX centerY centerZ = true <->
  (x - centerX) * (x - centerX) + (y - centerY) * (y - centerY)
    <= radius * radius
  /\ centerZ - height / 2 <= z <= centerZ + height / 2.
Proof.
  unfold InCylinder. on_reals. split.
  - intros Hin. reflect_cmp. lra.
  - intros [Hr [Hlo Hhi]]. reflect_cmp; lra.
Qed.

Lemma intersectsCylinder_R (x y z radius height centerX centerY centerZ : R) :
  intersectsCylinder x y z radius height centerX centerY centerZ = true <->
  (x - centerX) * (x - centerX) + (y - centerY) * (y - centerY)
    <= radius * radius
  /\ centerZ - height / 2 <= z <= centerZ + height / 2.
Proof.
  unfold intersectsCylinder. on_reals. split.
  - intros Hin. reflect_cmp. lra.
  - intros [Hr [Hlo Hhi]]. reflect_cmp; lra.
Qed.

(** *** The vertical weight of MeanShift_Classical and meanShiftClassic *)

Lemma dmin_Rmin (a b : R) : dmin a b = Rmin a b.
Proof.
  unfold dmin, Rmin. on_reals.
  destruct (Rle_dec a b) as [Hle | Hnle].
  - assert (Hf : Rltb b a = false) by (apply Rltb_false; exact Hle).
    rewrite Hf. reflexivity.
  - assert (Ht : Rltb b a = true) by (apply Rltb_true; lra).
    rewrite Ht. reflexivity.
Qed.

Lemma VerticalMask_inside (height centerZ pointZ : R) :
  centerZ - height / 4 <= pointZ <= centerZ + height / 2 ->
  VerticalMask height centerZ pointZ = 1%Z.
Proof.
  intros [Hlo Hhi]. unfold VerticalMask. on_reals.
  assert (Ha : Rleb (centerZ - height / (40 * / 10)) pointZ = true)
    by (apply Rleb_true; lra).
  assert (Hb : Rleb pointZ (centerZ + height / (20 * / 10)) = true)
    by (apply Rleb_true; lra).
  rewrite Ha, Hb. reflexivity.
Qed.

(** Inside the band the two relative distances are [1 + u] and [1 - u] for
    the offset [u] from the band's midpoint, in units of 3/8 of the height. *)
Lemma VerticalDistance_inside (height centerZ pointZ : R) :
  0 < height ->
  centerZ - height / 4 <= pointZ <= centerZ + height / 2 ->
  VerticalDistance height centerZ pointZ
  = 1 - Rabs ((pointZ - (centerZ + height / 8)) / (3 * height / 8)).
Proof.
  intros Hh [Hlo Hhi]. unfold VerticalDistance. rewrite dmin_Rmin. on_reals.
  set (u := (pointZ - (centerZ + height / 8)) / (3 * height / 8)).
  assert (Hb : (centerZ - height / (40 * / 10) - pointZ)
               / (height * (30 * / 10) / (80 * / 10)) = - (1 + u))
    by (unfold u; field; lra).
  assert (Ht : (centerZ + height / 2 - pointZ)
               / (height * (30 * / 10) / (80 * / 10)) = 1 - u)
    by (unfold u; field; lra).
  rewrite Hb, Ht.
  assert (Hu : -1 <= u <= 1).
  { unfold u. split.
    - apply Rmult_le_reg_r with (3 * height / 8); [lra |].
      unfold Rdiv at 2. rewrite Rmult_assoc, Rinv_l by lra. lra.
    - apply Rmult_le_reg_r with (3 * height / 8); [lra |].
      unfold Rdiv at 1. rewrite Rmult_assoc, Rinv_l by lra. lra. }
  rewrite Rabs_Ropp.
  rewrite (Rabs_pos_eq (1 + u)) by lra.
  rewrite (Rabs_pos_eq (1 - u)) by lra.
  unfold Rmin, Rabs.
  destruct (Rle_dec (1 + u) (1 - u)); destruct (Rcase_abs u); lra.
Qed.

Lemma Epanechnikov_inside (height centerZ pointZ : R) :
  0 < height ->
  centerZ - height / 4 <= pointZ <= centerZ + height / 2 ->
  EpanechnikovFunction height centerZ pointZ
  = 1 - ((pointZ - (centerZ + height / 8)) / (3 * height / 8))^2.
Proof.
  intros Hh Hin. unfold EpanechnikovFunction.
  rewrite VerticalMask_inside, VerticalDistance_inside by assumption.
  on_reals.
  set (u := (pointZ - (centerZ + height / 8)) / (3 * height / 8)).
  replace (1 - (1 - Rabs u)) with (Rabs u) by ring.
  replace (Rabs u * Rabs u) with (u ^ 2).
  - ring.
  - unfold Rabs. destruct (Rcase_abs u); ring.
Qed.

(** *** The horizontal weight *)

Lemma GaussFunction_R (radius centerX centerY pointX pointY : R) :
  GaussFunction radius centerX centerY pointX pointY
  = exp (-5 * (sqrt ((pointX - centerX)^2 + (pointY - centerY)^2) / radius)^2).
Proof.
  unfold GaussFunction. on_reals. f_equal.
  replace ((pointX - centerX) * (pointX - centerX)
           + (pointY - centerY) * (pointY - centerY))
    with ((pointX - centerX)^2 + (pointY - centerY)^2) by ring.
  lra.
Qed.

Lemma calculateHorizontalWeight_R (pointX pointY radius centerX centerY : R) :
  calculateHorizontalWeight pointX pointY radius centerX centerY
  = exp (-5 * (sqrt ((pointX - centerX)^2 + (pointY - centerY)^2) / radius)^2).
Proof.
  unfold calculateHorizontalWeight, gauss. on_reals. f_equal.
  replace ((centerX - pointX) * (centerX - pointX)
           + (centerY - pointY) * (centerY - pointY))
    with ((pointX - centerX)^2 + (pointY - centerY)^2) by ring.
  lra.
Qed.

(** The Gaussian of a relative distance [d / radius] lies in (0, 1] and is 1
    only for [d = 0]. *)
Lemma gauss_shape (radius dx dy : R) :
  0 < radius ->
  let w := exp (-5 * (sqrt (dx^2 + dy^2) / radius)^2) in
  0 < w <= 1 /\ (w = 1 <-> dx = 0 /\ dy = 0).
Proof.
  intros Hr w. subst w.
  set (q := sqrt (dx^2 + dy^2) / radius).
  assert (Hsq : 0 <= dx^2 + dy^2) by nra.
  assert (Hq0 : q = 0 <-> dx = 0 /\ dy = 0).
  { unfold q. split.
    - intros Hq.
      assert (Hs : sqrt (dx^2 + dy^2) = 0).
      { apply Rmult_eq_reg_r with (/ radius).
        - rewrite Rmult_0_l. exact Hq.
        - apply Rinv_neq_0_compat. lra. }
      apply sqrt_eq_0 in Hs; [| exact Hsq]. split; nra.
    - intros [Hx Hy]. subst dx dy.
      replace (0^2 + 0^2) with 0 by ring. rewrite sqrt_0. field. lra. }
  assert (Hle : -5 * q^2 <= 0) by nra.
  split.
  - split; [apply exp_pos |].
    destruct Hle as [Hlt | Heq].
    + left. rewrite <- exp_0. apply exp_increasing. exact Hlt.
    + right. rewrite Heq. apply exp_0.
  - rewrite <- Hq0. split.
    + intros H1. rewrite <- exp_0 in H1. apply exp_inv in H1. nra.
    + intros Hq. rewrite Hq. replace (-5 * 0^2) with 0 by ring. apply exp_0.
Qed.

(** ** The loop guards *)



(** ** A cylinder around one of the rows *)

Lemma InCylinder_centre (p : Point R) (radius height : R) :
  0 <= height ->
  InCylinder (px p) (py p) (pz p) radius height (px p) (py p) (pz p) = true.
Proof. intros Hh. apply InCylinder_R. split; [nra | lra]. Qed.

Lemma Epanechnikov_centre (height z : R) :
  0 < height -> EpanechnikovFunction height z z = 8 / 9.
Proof. intros Hh. rewrite Epanechnikov_inside by lra. field. lra. Qed.

Lemma Gauss_centre (radius x y : R) :
  0 < radius -> GaussFunction radius x y x y = 1.
Proof.
  intros Hr. rewrite GaussFunction_R.
  destruct (gauss_shape radius (x - x) (y - y) Hr) as [_ Hone].
  apply Hone. split; ring.
Qed.

(** [MeanShift_Classical] and [meanShiftClassic]: the centre of the cylinder
    is inside it and adds [self_weight] times its coordinates. *)
Lemma MSC_visit_centre (UniformKernel : bool) (radius height : R)
  (p : Point R) (s : Sums R) :
  0 < radius -> 0 < height ->
  MSC_visit UniformKernel radius height p s p
  = mkSums (sumX s + self_weight UniformKernel * px p)
           (sumY s + self_weight UniformKernel * py p)
           (sumZ s + self_weight UniformKernel * pz p)
           (sumP s + self_weight UniformKernel).
Proof.
  intros Hr Hh. unfold MSC_visit.
  rewrite InCylinder_centre by lra.
  destruct UniformKernel; unfold self_weight.
  - on_reals. f_equal; ring.
  - rewrite Epanechnikov_centre, Gauss_centre by assumption.
    on_reals. f_equal; ring.
Qed.

Lemma MSC_visit_centre_repeat (UniformKernel : bool) (radius height : R)
  (p : Point R) :
  0 < radius -> 0 < height ->
  forall (n : nat) (s : Sums R),
  fold_left (MSC_visit UniformKernel radius height p) (repeat p n) s
  = mkSums (sumX s + INR n * self_weight UniformKernel * px p)
           (sumY s + INR n * self_weight UniformKernel * py p)
           (sumZ s + INR n * self_weight UniformKernel * pz p)
           (sumP s + INR n * self_weight UniformKernel).
Proof.
  intros Hr Hh. induction n as [| n IH]; intros s.
  - destruct s. simpl. f_equal; ring.
  - cbn [repeat fold_left]. rewrite IH, MSC_visit_centre by assumption.
    rewrite S_INR. cbn [sumX sumY sumZ sumP]. f_equal; ring.
Qed.

Lemma self_weight_pos (UniformKernel : bool) : 0 < self_weight UniformKernel.
Proof. destruct UniformKernel; unfold self_weight; lra. Qed.

(** The scan of [MeanShift_Classical] from the seed itself. *)
Lemma MSC_scan_at_seed (pc : list (Point R)) (UniformKernel : bool)
  (i : nat) (radius height : R) :
  0 < radius -> 0 < height ->
  let p := row pc i in
  let nw := INR (length pc) * self_weight UniformKernel in
  MSC_scan pc UniformKernel i radius height p
  = mkSums (nw * px p) (nw * py p) (nw * pz p) nw.
Proof.
  intros Hr Hh p nw. rewrite MSC_scan_rows. fold p.
  rewrite MSC_visit_centre_repeat by assumption.
  cbn [sumX sumY sumZ sumP]. on_reals. unfold nw. f_equal; ring.
Qed.

(** From the seed, the body of [MeanShift_Classical] returns to the seed. *)
Lemma MSC_body_at_seed (pc : list (Point R)) (CD2TH_fac CH2TH_fac : R)
  (UniformKernel : bool) (i : nat) (k : Z) :
  (i < length pc)%nat -> 0 < pz (row pc i) ->
  0 < CD2TH_fac -> 0 < CH2TH_fac ->
  MSC_body pc CD2TH_fac CH2TH_fac UniformKernel i (row pc i) k
  = mkIter (row pc i) (row pc i) (k + 1)%Z.
Proof.
  intros Hi Hz Hcd Hch. unfold MSC_body.
  rewrite MSC_scan_at_seed; [| on_reals; nra | on_reals; nra].
  cbn [sumX sumY sumZ sumP]. on_reals.
  assert (Hn : 0 < INR (length pc)) by (apply lt_0_INR; lia).
  pose proof (self_weight_pos UniformKernel) as Hw.
  destruct (row pc i) as [x y z]. cbn [px py pz].
  f_equal. f_equal; field; split; lra.
Qed.

Lemma MSC_guard_at_rest (MaxIter : Z) (p : Point R) (k : Z) :
  MSC_guard MaxIter (mkIter p p k) = (k <? MaxIter)%Z.
Proof.
  unfold MSC_guard. cbn [centroid old IterCounter]. on_reals.
  assert (Hx : forall x, Rltb (Rabs (x - x)) (1 * / 100) = true).
  { intros x. apply Rltb_true.
    replace (x - x) with 0 by ring. rewrite Rabs_R0. lra. }
  rewrite !Hx. reflexivity.
Qed.

Lemma euclid_guard_at_rest (maxNum : Z) (p : Point R) (k : Z) :
  euclid_guard maxNum (mkIter p p k) = false.
Proof.
  unfold euclid_guard. cbn [centroid old IterCounter]. on_reals.
  replace ((px p - px p) * (px p - px p) + (py p - py p) * (py p - py p)
           + (pz p - pz p) * (pz p - pz p)) with 0 by ring.
  rewrite sqrt_0.
  assert (Hf : Rltb (1 * / 100) 0 = false) by (apply Rltb_false; lra).
  rewrite Hf. reflexivity.
Qed.

(** The per-seed loop of [MeanShift_Classical] stays on the seed until the
    budget is used up. *)
Lemma MSC_seed_stuck (pc : list (Point R)) (CD2TH_fac CH2TH_fac : R)
  (MaxIter : Z) (UniformKernel : bool) (fuel i : nat) :
  (i < length pc)%nat -> 0 < pz (row pc i) ->
  0 < CD2TH_fac -> 0 < CH2TH_fac ->
  (1 <= fuel)%nat -> (Z.to_nat MaxIter <= fuel)%nat ->
  MSC_seed pc CD2TH_fac CH2TH_fac MaxIter UniformKernel fuel i
  = Some (Z.to_nat (Z.max 1 MaxIter),
          mkIter (row pc i) (row pc i) (Z.max 1 MaxIter)).
Proof.
  intros Hi Hz Hcd Hch H1 Hfuel. unfold MSC_seed.
  rewrite (do_while_stuck _ (MSC_guard MaxIter) MaxIter (row pc i)).
  - rewrite Z.sub_0_r. reflexivity.
  - intros k. apply MSC_body_at_seed; assumption.
  - intros k. apply MSC_guard_at_rest.
  - exact H1.
  - rewrite Z.sub_0_r. exact Hfuel.
Qed.

(** ** A cloud of one point *)

Lemma mSC_body_one_point (p : Point R)
  (crownDiameter2TreeHeight crownHeight2TreeHeight : R) (k : Z) :
  0 < pz p -> 0 < crownDiameter2TreeHeight -> 0 < crownHeight2TreeHeight ->
  mSC_body [p] crownDiameter2TreeHeight crownHeight2TreeHeight p k
  = mkIter p p (k + 1)%Z.
Proof.
  intros Hz Hcd Hch. unfold mSC_body. rewrite mSC_scan_rows.
  cbn [fold_left].
  rewrite mSC_visit_MSC_visit.
  rewrite MSC_visit_centre; [| on_reals; nra | on_reals; nra].
  cbn [sumX sumY sumZ sumP self_weight]. on_reals.
  destruct p as [x y z]. cbn [px py pz].
  f_equal. f_equal; field.
Qed.

Lemma intersectsCylinder_centre (p : Point R) (radius height : R) :
  0 <= height ->
  intersectsCylinder (px p) (py p) (pz p) radius height (px p) (py p)
    (add (pz p) (div (mul height (lit 1.0)) (lit 6.0))) = true.
Proof.
  intros Hh. apply intersectsCylinder_R. on_reals. split; [nra | lra].
Qed.

Lemma calculateVerticalWeight_centre (height z : R) :
  0 < height ->
  calculateVerticalWeight z (add z (div (mul height (lit 1.0)) (lit 6.0)))
                          height
  = 8 / 9.
Proof.
  intros Hh. unfold calculateVerticalWeight, epanechnikov. on_reals.
  replace (z + height * (10 * / 10) / (60 * / 10) - z) with (height / 6)
    by (field; lra).
  rewrite Rabs_pos_eq by lra. field. lra.
Qed.

Lemma calculateHorizontalWeight_centre (radius x y : R) :
  0 < radius -> calculateHorizontalWeight x y radius x y = 1.
Proof.
  intros Hr. rewrite calculateHorizontalWeight_R.
  destruct (gauss_shape radius (x - x) (y - y) Hr) as [_ Hone].
  apply Hone. split; ring.
Qed.

Lemma mSCI_body_one_point (p : Point R)
  (crownDiameter2TreeHeight crownHeight2TreeHeight : R) (k : Z) :
  0 < pz p -> 0 < crownDiameter2TreeHeight -> 0 < crownHeight2TreeHeight ->
  mSCI_body [p] crownDiameter2TreeHeight crownHeight2TreeHeight p k
  = mkIter p p (k + 1)%Z.
Proof.
  intros Hz Hcd Hch. unfold mSCI_body. rewrite mSCI_scan_rows.
  cbn [fold_left]. unfold mSCI_visit.
  assert (Hr : 0 < mul (mul crownDiameter2TreeHeight (pz p)) (lit 0.5))
    by (on_reals; nra).
  assert (Hh : 0 < mul (mul crownHeight2TreeHeight (pz p)) (lit 0.75))
    by (on_reals; nra).
  rewrite intersectsCylinder_centre by lra.
  rewrite calculateVerticalWeight_centre by exact Hh.
  rewrite calculateHorizontalWeight_centre by exact Hr.
  cbn [sumX sumY sumZ sumP]. on_reals.
  destruct p as [x y z]. cbn [px py pz].
  f_equal. f_equal; field.
Qed.

(** On a cloud of one point above the ground, [meanShiftClassic] and
    [meanShiftClassicImproved] run the body once and return the point. *)
Lemma mSC_seed_one_point (p : Point R)
  (crownDiameter2TreeHeight crownHeight2TreeHeight : R)
  (maxNumCentroidsPerMode : Z) (fuel : nat) :
  0 < pz p -> 0 < crownDiameter2TreeHeight -> 0 < crownHeight2TreeHeight ->
  (1 <= fuel)%nat ->
  mSC_seed [p] crownDiameter2TreeHeight crownHeight2TreeHeight
           maxNumCentroidsPerMode fuel 0
  = Some (1%nat, mkIter p p 1).
Proof.
  intros Hz Hcd Hch H1. unfold mSC_seed. cbn [row nth].
  rewrite do_while_once; rewrite ?mSC_body_one_point by assumption;
    auto using euclid_guard_at_rest.
Qed.

Lemma mSCI_seed_one_point (p : Point R)
  (crownDiameter2TreeHeight crownHeight2TreeHeight : R)
  (maxNumCentroidsPerMode : Z) (fuel : nat) :
  0 < pz p -> 0 < crownDiameter2TreeHeight -> 0 < crownHeight2TreeHeight ->
  (1 <= fuel)%nat ->
  mSCI_seed [p] crownDiameter2TreeHeight crownHeight2TreeHeight
            maxNumCentroidsPerMode fuel 0
  = Some (1%nat, mkIter p p 1).
Proof.
  intros Hz Hcd Hch H1. unfold mSCI_seed. cbn [row nth].
  rewrite do_while_once; rewrite ?mSCI_body_one_point by assumption;
    auto using euclid_guard_at_rest.
Qed.

(** [MeanShift_Classical] returns the point as well, after as many
    executions of the body as the budget allows. *)
Lemma MSC_seed_one_point (p : Point R) (CD2TH_fac CH2TH_fac : R)
  (MaxIter : Z) (UniformKernel : bool) (fuel : nat) :
  0 < pz p -> 0 < CD2TH_fac -> 0 < CH2TH_fac ->
  (1 <= MaxIter)%Z -> (Z.to_nat MaxIter <= fuel)%nat ->
  MSC_seed [p] CD2TH_fac CH2TH_fac MaxIter UniformKernel fuel 0
  = Some (Z.to_nat MaxIter, mkIter p p MaxIter).
Proof.
  intros Hz Hcd Hch H1 Hfuel.
  rewrite MSC_seed_stuck; cbn [row nth length]; auto; try lia.
  replace (Z.max 1 MaxIter) with MaxIter by lia. reflexivity.
Qed.

(** ** The scan of MeanShift_Classical on two points *)

(** C1 at two_points, seed 0, first iteration with both ratios 1 (radius 5,
    height 10): the second point lies inside the cylinder, and a scan that
    accumulates every candidate's own coordinates has sumX = 1 under the
    uniform kernel; the scan of [MeanShift_Classical] has sumX = 0, the
    seed's x added twice, with or without the uniform kernel, and its new
    centroid is the seed.  The scan of [meanShiftClassic] on the same
    cylinder does accumulate the second point's x. *)
Theorem C1_MeanShift_Classical_scans_the_seed :
  let c := mkPoint 0 0 10 in
  MSC_body two_points 1 1 true 0 c 0 = mkIter c c 1
  /\ InCylinder 1 0 10 5 10 0 0 10 = true
  /\ MSC_scan two_points true 0 5 10 c = mkSums 0 0 20 2
  /\ claimed_scan two_points true 5 10 c = mkSums 1 0 20 2
  /\ sumX (MSC_scan two_points false 0 5 10 c) = 0
  /\ 0 < sumX (mSC_scan two_points 5 10 c).
Proof.
  intros c.
  assert (Hc : row two_points 0 = c) by reflexivity.
  assert (Hin : InCylinder 1 0 10 5 10 0 0 10 = true)
    by (apply InCylinder_R; lra).
  assert (H5 : 0 < 5) by lra.
  assert (H10 : 0 < 10) by lra.
  split; [| split; [exact Hin | split; [| split; [| split]]]].
  - rewrite <- Hc. apply MSC_body_at_seed; cbn [two_points length row nth pz];
      try lra. lia.
  - rewrite <- Hc, MSC_scan_at_seed by assumption.
    cbn [two_points length row nth px py pz self_weight INR].
    f_equal; lra.
  - unfold claimed_scan.
    cbn [two_points length seq fold_left row nth].
    fold c. rewrite MSC_visit_centre by assumption.
    unfold MSC_visit. cbn [px py pz c sumX sumY sumZ sumP self_weight].
    rewrite Hin. on_reals. f_equal; lra.
  - rewrite <- Hc, MSC_scan_at_seed by assumption.
    cbn [two_points length row nth px sumX]. ring.
  - rewrite mSC_scan_rows. cbn [two_points fold_left]. fold c.
    rewrite !mSC_visit_MSC_visit.
    rewrite (MSC_visit_centre false 5 10 c _ H5 H10).
    unfold MSC_visit. cbn [px py pz c sumX sumY sumZ sumP self_weight].
    rewrite Hin. cbn [sumX].
    rewrite Epanechnikov_centre by assumption. rewrite GaussFunction_R.
    on_reals.
    pose proof (exp_pos (-5 * (sqrt ((1 - 0) ^ 2 + (0 - 0) ^ 2) / 5) ^ 2)).
    nra.
Qed.

(** * Further properties of the sources *)

(** ** Edge cases of the drivers, for every arithmetic *)

Section DriverEdges.

Local Close Scope R_scope.
Local Open Scope nat_scope.

Context {D : Type} `{Double D}.

(** X1: on a cloud without points each of the three drivers returns the
    table with six empty columns, whatever the ratios, the budget and the
    fuel: no per-seed loop is entered. *)
Theorem X1_empty_cloud (CD2TH_fac CH2TH_fac : D) (MaxIter : Z)
  (UniformKernel : bool) (fuel : nat) :
  MeanShift_Classical [] CD2TH_fac CH2TH_fac MaxIter UniformKernel fuel
  = Some (mkDataFrame [] [] [] [] [] [])
  /\ meanShiftClassic [] CD2TH_fac CH2TH_fac MaxIter fuel
     = Some (mkDataFrame [] [] [] [] [] [])
  /\ meanShiftClassicImproved [] CD2TH_fac CH2TH_fac MaxIter fuel
     = Some (mkDataFrame [] [] [] [] [] []).
Proof. repeat split. Qed.

(** X2: with a budget of at most 1 (zero and negative budgets included) the
    per-seed loop of each driver still executes its body once, as a do-while
    loop does, and ends on the centroid of that one scan from the seed. *)
Theorem X2_budget_at_most_one
  (pc : list (Point D)) (CD2TH_fac CH2TH_fac : D) (MaxIter : Z)
  (UniformKernel : bool) (fuel i : nat) :
  (MaxIter <= 1)%Z -> 1 <= fuel ->
  MSC_seed pc CD2TH_fac CH2TH_fac MaxIter UniformKernel fuel i
  = Some (1, MSC_body pc CD2TH_fac CH2TH_fac UniformKernel i (row pc i) 0%Z)
  /\ mSC_seed pc CD2TH_fac CH2TH_fac MaxIter fuel i
     = Some (1, mSC_body pc CD2TH_fac CH2TH_fac (row pc i) 0%Z)
  /\ mSCI_seed pc CD2TH_fac CH2TH_fac MaxIter fuel i
     = Some (1, mSCI_body pc CD2TH_fac CH2TH_fac (row pc i) 0%Z).
Proof.
  intros Hmax Hfuel.
  assert (Hk : (0 + 1 <? MaxIter)%Z = false) by (apply Z.ltb_ge; lia).
  split; [| split].
  - apply do_while_once; [exact Hfuel |].
    unfold MSC_guard. cbn [IterCounter MSC_body]. rewrite Hk.
    apply andb_false_r.
  - apply do_while_once; [exact Hfuel |].
    unfold euclid_guard. cbn [IterCounter mSC_body]. rewrite Hk.
    apply andb_false_r.
  - apply do_while_once; [exact Hfuel |].
    unfold euclid_guard. cbn [IterCounter mSCI_body]. rewrite Hk.
    apply andb_false_r.
Qed.

End DriverEdges.

(** A budget of 0 on [two_points]. *)
Lemma X2_budget_at_most_one_witness :
  MSC_seed two_points 0.6 0.5 0 false 1 1
  = Some (1%nat, MSC_body two_points 0.6 0.5 false 1 (row two_points 1) 0%Z)
  /\ mSC_seed two_points 0.6 0.5 0 1 1
     = Some (1%nat, mSC_body two_points 0.6 0.5 (row two_points 1) 0%Z)
  /\ mSCI_seed two_points 0.6 0.5 0 1 1
     = Some (1%nat, mSCI_body two_points 0.6 0.5 (row two_points 1) 0%Z).
Proof.
  assert (Hmax : (0 <= 1)%Z) by lia.
  assert (Hfuel : (1 <= 1)%nat) by lia.
  exact (X2_budget_at_most_one two_points 0.6 0.5 0%Z false 1 1 Hmax Hfuel).
Defined.

(** ** The radius of the cylinder *)

(** X4: the radius enters both membership tests through its square only: a
    negative radius selects the same points as its absolute value. *)
Theorem X4_radius_sign_is_ignored
  (x y z radius height centerX centerY centerZ : R) :
  InCylinder x y z (- radius) height centerX centerY centerZ
  = InCylinder x y z radius height centerX centerY centerZ
  /\ intersectsCylinder x y z (- radius) height centerX centerY centerZ
     = intersectsCylinder x y z radius height centerX centerY centerZ.
Proof.
  unfold InCylinder, intersectsCylinder. on_reals.
  replace (- radius * - radius) with (radius * radius) by ring.
  split; reflexivity.
Qed.

(** ** A centroid that an update leaves in place *)


(** * The sources on binary64 floats *)

(** ** Comparisons and special values *)

Lemma SFcompare_antisym (x y : SpecFloat.spec_float) :
  SpecFloat.SFcompare y x
  = match SpecFloat.SFcompare x y with
    | Some c => Some (CompOpp c)
    | None => None
    end.
Proof.
  destruct x as [sx | sx | | sx mx ex], y as [sy | sy | | sy my ey];
    cbn; try reflexivity;
    try (destruct sx; reflexivity); try (destruct sy; reflexivity);
    try (destruct sx, sy; reflexivity).
  change (PosDef.Pos.compare_cont Eq) with Pos.compare.
  rewrite (Z.compare_antisym ex ey), (Pos.compare_antisym mx my).
  destruct sx, sy; try reflexivity;
    destruct (ex ?= ey)%Z; cbn; try reflexivity;
    destruct (mx ?= my)%positive; reflexivity.
Qed.

Lemma SFcompare_refl (x : SpecFloat.spec_float) :
  SpecFloat.SFcompare x x
  = match x with SpecFloat.S754_nan => None | _ => Some Eq end.
Proof.
  destruct x as [s | s | | s m e]; cbn; try reflexivity;
    try (destruct s; reflexivity).
  change (PosDef.Pos.compare_cont Eq) with Pos.compare.
  rewrite Z.compare_refl, Pos.compare_refl. destruct s; reflexivity.
Qed.

Lemma is_nan64 (x : PrimFloat.float) :
  PrimFloat.is_nan x = true <-> FloatOps.Prim2SF x = SpecFloat.S754_nan.
Proof.
  unfold PrimFloat.is_nan. rewrite FloatAxioms.eqb_spec.
  unfold SpecFloat.SFeqb. rewrite SFcompare_refl.
  destruct (FloatOps.Prim2SF x); cbn; split; intros E;
    try reflexivity; discriminate.
Qed.

Lemma is_zero64_spec (x : PrimFloat.float) :
  is_zero64 x = true
  <-> exists s, FloatOps.Prim2SF x = SpecFloat.S754_zero s.
Proof.
  unfold is_zero64. rewrite FloatAxioms.eqb_spec.
  change (FloatOps.Prim2SF PrimFloat.zero) with (SpecFloat.S754_zero false).
  destruct (FloatOps.Prim2SF x) as [s | s | | s m e]; cbn; split;
    try discriminate; try (intros [s' E]; discriminate); eauto.
  all: destruct s; discriminate.
Qed.

Lemma is_infinity64 (x : PrimFloat.float) :
  PrimFloat.is_infinity x = true
  <-> exists s, FloatOps.Prim2SF x = SpecFloat.S754_infinity s.
Proof.
  unfold PrimFloat.is_infinity.
  rewrite FloatAxioms.eqb_spec, FloatAxioms.abs_spec.
  change (FloatOps.Prim2SF PrimFloat.infinity)
    with (SpecFloat.S754_infinity false).
  destruct (FloatOps.Prim2SF x) as [s | s | | s m e]; cbn; split;
    try discriminate; try (intros [s' E]; discriminate); eauto.
Qed.

(** [a < x] is false exactly when [x <= a] or [x] is not a number. *)
Lemma ltb_false64 (a x : PrimFloat.float) :
  PrimFloat.is_nan a = false ->
  (PrimFloat.ltb a x = false
   <-> PrimFloat.leb x a = true \/ PrimFloat.is_nan x = true).
Proof.
  intros Ha.
  assert (Ha' : FloatOps.Prim2SF a <> SpecFloat.S754_nan).
  { intros E. apply is_nan64 in E. congruence. }
  rewrite is_nan64, FloatAxioms.ltb_spec, FloatAxioms.leb_spec.
  unfold SpecFloat.SFltb, SpecFloat.SFleb.
  rewrite (SFcompare_antisym (FloatOps.Prim2SF a) (FloatOps.Prim2SF x)).
  destruct (SpecFloat.SFcompare (FloatOps.Prim2SF a) (FloatOps.Prim2SF x))
    as [[| |] |] eqn:E; cbn.
  - split; auto.
  - split; [discriminate |]. intros [Hx | Hx]; [discriminate |].
    rewrite Hx in E. destruct (FloatOps.Prim2SF a); discriminate.
  - split; auto.
  - split; [| reflexivity]. intros _. right.
    destruct (FloatOps.Prim2SF a), (FloatOps.Prim2SF x);
      try reflexivity; try discriminate; congruence.
Qed.

(** ** Arithmetic at zero and at not-a-number *)

Lemma mul_zero64 (x : PrimFloat.float) :
  is_zero64 (PrimFloat.mul PrimFloat.zero x) = true
  \/ PrimFloat.is_nan (PrimFloat.mul PrimFloat.zero x) = true.
Proof.
  unfold is_zero64, PrimFloat.is_nan.
  rewrite !FloatAxioms.eqb_spec, FloatAxioms.mul_spec.
  change (FloatOps.Prim2SF PrimFloat.zero) with (SpecFloat.S754_zero false).
  destruct (FloatOps.Prim2SF x) as [s | s | | s m e]; cbn; auto.
Qed.

Lemma sub_diag64 (x : PrimFloat.float) :
  PrimFloat.is_finite x = true -> PrimFloat.sub x x = PrimFloat.zero.
Proof.
  intros Hx. apply FloatAxioms.Prim2SF_inj. rewrite FloatAxioms.sub_spec.
  change (FloatOps.Prim2SF PrimFloat.zero) with (SpecFloat.S754_zero false).
  unfold PrimFloat.is_finite in Hx. apply negb_true_iff, orb_false_iff in Hx.
  destruct Hx as [Hnan Hinf].
  destruct (FloatOps.Prim2SF x) as [s | s | | s m e] eqn:E.
  - destruct s; reflexivity.
  - assert (PrimFloat.is_infinity x = true) by (apply is_infinity64; eauto).
    congruence.
  - apply is_nan64 in E. congruence.
  - unfold FloatAxioms.SF64sub, SpecFloat.SFsub.
    cbv zeta. rewrite Z.sub_diag. reflexivity.
Qed.

Lemma abs_div_zero64 (s : PrimFloat.float) :
  is_zero64 s = false -> PrimFloat.is_nan s = false ->
  PrimFloat.abs (PrimFloat.div PrimFloat.zero s) = PrimFloat.zero.
Proof.
  intros Hz Hn. apply FloatAxioms.Prim2SF_inj.
  rewrite FloatAxioms.abs_spec, FloatAxioms.div_spec.
  change (FloatOps.Prim2SF PrimFloat.zero) with (SpecFloat.S754_zero false).
  destruct (FloatOps.Prim2SF s) as [b | b | | b m e] eqn:E; try reflexivity.
  - assert (is_zero64 s = true) by (apply is_zero64_spec; eauto). congruence.
  - apply is_nan64 in E. congruence.
Qed.

Lemma ltb_abs_zero64 (y : PrimFloat.float) :
  PrimFloat.ltb (PrimFloat.abs y) PrimFloat.zero = false.
Proof.
  rewrite FloatAxioms.ltb_spec, FloatAxioms.abs_spec.
  change (FloatOps.Prim2SF PrimFloat.zero) with (SpecFloat.S754_zero false).
  destruct (FloatOps.Prim2SF y) as [b | b | | b m e]; reflexivity.
Qed.

Lemma abs_not_above_zero64 (y : PrimFloat.float) :
  PrimFloat.ltb PrimFloat.zero (PrimFloat.abs y) = false ->
  PrimFloat.is_nan (PrimFloat.abs y) = false ->
  PrimFloat.abs y = PrimFloat.zero.
Proof.
  intros Hlt Hn. apply FloatAxioms.Prim2SF_inj.
  assert (Hn' : FloatOps.Prim2SF (PrimFloat.abs y) <> SpecFloat.S754_nan).
  { intros E. apply is_nan64 in E. congruence. }
  rewrite FloatAxioms.ltb_spec in Hlt.
  rewrite FloatAxioms.abs_spec in *.
  change (FloatOps.Prim2SF PrimFloat.zero) with (SpecFloat.S754_zero false)
    in *.
  destruct (FloatOps.Prim2SF y) as [b | b | | b m e]; cbn in *;
    try reflexivity; try discriminate; congruence.
Qed.

Lemma sub_nan64 (x : PrimFloat.float) :
  PrimFloat.sub PrimFloat.nan x = PrimFloat.nan.
Proof.
  apply FloatAxioms.Prim2SF_inj. rewrite FloatAxioms.sub_spec.
  reflexivity.
Qed.

(** ** The library at zero *)

(** A library with exp(-0) = 1 and hypot(+0, +0) = +0 is the library that
    [exp_at_zero] and [hypot_at_zero] make of it. *)
Lemma libm_at_zero
  (libm_exp : PrimFloat.float -> PrimFloat.float)
  (libm_hypot : PrimFloat.float -> PrimFloat.float -> PrimFloat.float) :
  libm_exp PrimFloat.neg_zero = dec 1 ->
  libm_hypot PrimFloat.zero PrimFloat.zero = PrimFloat.zero ->
  binary64 libm_exp libm_hypot
  = binary64 (exp_at_zero libm_exp) (hypot_at_zero libm_hypot).
Proof.
  intros He Hh.
  assert (Ee : exp_at_zero libm_exp = libm_exp).
  { apply functional_extensionality. intros x. unfold exp_at_zero.
    destruct (FloatOps.Prim2SF x) as [[|] | | |] eqn:E; try reflexivity.
    assert (Hx : x = PrimFloat.neg_zero)
      by (apply FloatAxioms.Prim2SF_inj; rewrite E; reflexivity).
    rewrite Hx, He. reflexivity. }
  assert (Eh : hypot_at_zero libm_hypot = libm_hypot).
  { apply functional_extensionality. intros x.
    apply functional_extensionality. intros y. unfold hypot_at_zero.
    destruct (FloatOps.Prim2SF x) as [[|] | | |] eqn:Ex; try reflexivity.
    destruct (FloatOps.Prim2SF y) as [[|] | | |] eqn:Ey; try reflexivity.
    assert (Hx : x = PrimFloat.zero)
      by (apply FloatAxioms.Prim2SF_inj; rewrite Ex; reflexivity).
    assert (Hy : y = PrimFloat.zero)
      by (apply FloatAxioms.Prim2SF_inj; rewrite Ey; reflexivity).
    rewrite Hx, Hy, Hh. reflexivity. }
  rewrite Ee, Eh. reflexivity.
Qed.

(** ** The vertical kernel *)

Section VerticalKernel64.

Variable libm_exp : PrimFloat.float -> PrimFloat.float.
Variable libm_hypot : PrimFloat.float -> PrimFloat.float -> PrimFloat.float.

Lemma EpanechnikovFunction64 (height centerZ pointZ : PrimFloat.float) :
  let lower := PrimFloat.sub centerZ (PrimFloat.div height (dec 4.0)) in
  let upper := PrimFloat.add centerZ (PrimFloat.div height (dec 2.0)) in
  let scale := PrimFloat.div (PrimFloat.mul height (dec 3.0)) (dec 8.0) in
  let bottom :=
    PrimFloat.abs (PrimFloat.div (PrimFloat.sub lower pointZ) scale) in
  let top :=
    PrimFloat.abs (PrimFloat.div (PrimFloat.sub upper pointZ) scale) in
  let distance := if PrimFloat.ltb top bottom then top else bottom in
  EpanechnikovFunction (H:=binary64 libm_exp libm_hypot)
                       height centerZ pointZ
  = PrimFloat.mul
      (Z2F (if PrimFloat.leb lower pointZ && PrimFloat.leb pointZ upper
            then 1 else 0)%Z)
      (PrimFloat.sub (Z2F 1)
         (PrimFloat.mul (PrimFloat.sub (Z2F 1) distance)
                        (PrimFloat.sub (Z2F 1) distance))).
Proof. reflexivity. Qed.

(** At the computed lower end of the band the value is +0. *)
Lemma Epanechnikov_lower_end64 (height centerZ : PrimFloat.float) :
  let lower := PrimFloat.sub centerZ (PrimFloat.div height (dec 4.0)) in
  let scale := PrimFloat.div (PrimFloat.mul height (dec 3.0)) (dec 8.0) in
  PrimFloat.is_finite lower = true ->
  is_zero64 scale = false -> PrimFloat.is_nan scale = false ->
  EpanechnikovFunction (H:=binary64 libm_exp libm_hypot)
                       height centerZ lower
  = PrimFloat.zero.
Proof.
  intros lower scale Hfin Hz Hn.
  rewrite EpanechnikovFunction64. cbv zeta. fold lower. fold scale.
  rewrite (sub_diag64 lower Hfin), (abs_div_zero64 scale Hz Hn).
  rewrite ltb_abs_zero64.
  match goal with
  | |- context [if ?b then 1%Z else 0%Z] => destruct b
  end; vm_compute; reflexivity.
Qed.

(** At the computed upper end of the band the value is +0. *)
Lemma Epanechnikov_upper_end64 (height centerZ : PrimFloat.float) :
  let upper := PrimFloat.add centerZ (PrimFloat.div height (dec 2.0)) in
  let lower := PrimFloat.sub centerZ (PrimFloat.div height (dec 4.0)) in
  let scale := PrimFloat.div (PrimFloat.mul height (dec 3.0)) (dec 8.0) in
  PrimFloat.is_finite upper = true ->
  is_zero64 scale = false -> PrimFloat.is_nan scale = false ->
  PrimFloat.is_nan
    (PrimFloat.abs (PrimFloat.div (PrimFloat.sub lower upper) scale))
  = false ->
  EpanechnikovFunction (H:=binary64 libm_exp libm_hypot)
                       height centerZ upper
  = PrimFloat.zero.
Proof.
  intros upper lower scale Hfin Hz Hn Hb.
  rewrite EpanechnikovFunction64. cbv zeta.
  fold upper. fold lower. fold scale.
  rewrite (sub_diag64 upper Hfin), (abs_div_zero64 scale Hz Hn).
  destruct (PrimFloat.ltb PrimFloat.zero
              (PrimFloat.abs
                 (PrimFloat.div (PrimFloat.sub lower upper) scale))) eqn:Hlt.
  - match goal with
    | |- context [if ?b then 1%Z else 0%Z] => destruct b
    end; vm_compute; reflexivity.
  - rewrite (abs_not_above_zero64 _ Hlt Hb).
    match goal with
    | |- context [if ?b then 1%Z else 0%Z] => destruct b
    end; vm_compute; reflexivity.
Qed.

End VerticalKernel64.

(** C7: [EpanechnikovFunction] is, on the computed doubles, the mask times
    1 - (1 - d)^2: the mask is 1 when centerZ - height/4 <= pointZ and
    pointZ <= centerZ + height/2 both hold and 0 otherwise, and d is the
    smaller of the two relative distances
    |(end of the band - pointZ) / (height * 3 / 8)|.  Where the mask is 0
    the result is a zero, or not-a-number when the unmasked factor is
    infinite or not a number.  At each of the two computed ends of the band
    the result is +0, for a finite end and a scale height * 3 / 8 that is
    neither zero nor not-a-number (at the upper end, for a distance to the
    lower end that is a number). *)
Theorem C7_EpanechnikovFunction_as_masked
  (libm_exp : PrimFloat.float -> PrimFloat.float)
  (libm_hypot : PrimFloat.float -> PrimFloat.float -> PrimFloat.float) :
  (forall (D : Type) (H : Double D) (height centerZ pointZ : D),
     let inside :=
       leb (sub centerZ (div height (lit 4.0))) pointZ
       && leb pointZ (add centerZ (div height (lit 2.0))) in
     let scale := div (mul height (lit 3.0)) (lit 8.0) in
     let distance :=
       dmin (dabs (div (sub (sub centerZ (div height (lit 4.0))) pointZ)
                       scale))
            (dabs (div (sub (add centerZ (div height (of_int 2))) pointZ)
                       scale)) in
     VerticalMask height centerZ pointZ = (if inside then 1 else 0)%Z
     /\ VerticalDistance height centerZ pointZ = distance
     /\ EpanechnikovFunction height centerZ pointZ
        = mul (of_int (if inside then 1 else 0)%Z)
              (sub (of_int 1) (pow2 (sub (of_int 1) distance))))
  /\ (forall height centerZ pointZ : PrimFloat.float,
        VerticalMask (H:=binary64 libm_exp libm_hypot) height centerZ pointZ
        = 0%Z ->
        is_zero64 (EpanechnikovFunction (H:=binary64 libm_exp libm_hypot)
                     height centerZ pointZ) = true
        \/ PrimFloat.is_nan
             (EpanechnikovFunction (H:=binary64 libm_exp libm_hypot)
                height centerZ pointZ) = true)
  /\ (forall height centerZ : PrimFloat.float,
        let lower := PrimFloat.sub centerZ (PrimFloat.div height (dec 4.0)) in
        let upper := PrimFloat.add centerZ (PrimFloat.div height (dec 2.0)) in
        let scale :=
          PrimFloat.div (PrimFloat.mul height (dec 3.0)) (dec 8.0) in
        is_zero64 scale = false -> PrimFloat.is_nan scale = false ->
        (PrimFloat.is_finite lower = true ->
         EpanechnikovFunction (H:=binary64 libm_exp libm_hypot)
                              height centerZ lower
         = PrimFloat.zero)
        /\ (PrimFloat.is_finite upper = true ->
            PrimFloat.is_nan
              (PrimFloat.abs
                 (PrimFloat.div (PrimFloat.sub lower upper) scale))
            = false ->
            EpanechnikovFunction (H:=binary64 libm_exp libm_hypot)
                                 height centerZ upper
            = PrimFloat.zero)).
Proof.
  split; [| split].
  - intros D H height centerZ pointZ.
    apply EpanechnikovFunction_as_computed.
  - intros height centerZ pointZ Hmask. unfold EpanechnikovFunction.
    rewrite Hmask. apply mul_zero64.
  - intros height centerZ lower upper scale Hz Hn. split.
    + intros Hfin.
      exact (Epanechnikov_lower_end64 libm_exp libm_hypot height centerZ
               Hfin Hz Hn).
    + intros Hfin Hb.
      exact (Epanechnikov_upper_end64 libm_exp libm_hypot height centerZ
               Hfin Hz Hn Hb).
Qed.

(** ** The horizontal kernel *)

Lemma div_zero_sq64 (r : PrimFloat.float) :
  is_zero64 r = false -> PrimFloat.is_nan r = false ->
  PrimFloat.mul (PrimFloat.div PrimFloat.zero r)
                (PrimFloat.div PrimFloat.zero r)
  = PrimFloat.zero.
Proof.
  intros Hz Hn. apply FloatAxioms.Prim2SF_inj.
  rewrite FloatAxioms.mul_spec, FloatAxioms.div_spec.
  change (FloatOps.Prim2SF PrimFloat.zero) with (SpecFloat.S754_zero false).
  destruct (FloatOps.Prim2SF r) as [b | b | | b m e] eqn:E.
  - assert (is_zero64 r = true) by (apply is_zero64_spec; eauto). congruence.
  - destruct b; reflexivity.
  - apply is_nan64 in E. congruence.
  - destruct b; reflexivity.
Qed.

Section HorizontalKernel64.

Variable libm_exp : PrimFloat.float -> PrimFloat.float.
Variable libm_hypot : PrimFloat.float -> PrimFloat.float -> PrimFloat.float.

Lemma GaussFunction64 (radius centerX centerY pointX pointY : PrimFloat.float) :
  let normDistance :=
    PrimFloat.div (libm_hypot (PrimFloat.sub pointX centerX)
                              (PrimFloat.sub pointY centerY))
                  radius in
  GaussFunction (H:=binary64 libm_exp libm_hypot)
                radius centerX centerY pointX pointY
  = libm_exp (PrimFloat.mul (dec (-5.0))
                (PrimFloat.mul normDistance normDistance)).
Proof. reflexivity. Qed.

Lemma calculateHorizontalWeight64
  (pointX pointY cylinderRadius centerX centerY : PrimFloat.float) :
  let relative :=
    PrimFloat.div (libm_hypot (PrimFloat.sub centerX pointX)
                              (PrimFloat.sub centerY pointY))
                  cylinderRadius in
  calculateHorizontalWeight (H:=binary64 libm_exp libm_hypot)
                            pointX pointY cylinderRadius centerX centerY
  = libm_exp (PrimFloat.mul (dec (-5.0)) (PrimFloat.mul relative relative)).
Proof. reflexivity. Qed.

Hypothesis exp_zero : libm_exp PrimFloat.neg_zero = dec 1.
Hypothesis hypot_zero :
  libm_hypot PrimFloat.zero PrimFloat.zero = PrimFloat.zero.

(** On the axis of a cylinder with a finite centre both weights are 1. *)
Lemma horizontal_weight_on_axis64 (radius centerX centerY : PrimFloat.float) :
  PrimFloat.is_finite centerX = true -> PrimFloat.is_finite centerY = true ->
  is_zero64 radius = false -> PrimFloat.is_nan radius = false ->
  GaussFunction (H:=binary64 libm_exp libm_hypot)
                radius centerX centerY centerX centerY
  = dec 1
  /\ calculateHorizontalWeight (H:=binary64 libm_exp libm_hypot)
                               centerX centerY radius centerX centerY
     = dec 1.
Proof.
  intros Hx Hy Hz Hn.
  assert (E : PrimFloat.mul (dec (-5.0)) PrimFloat.zero = PrimFloat.neg_zero)
    by reflexivity.
  rewrite GaussFunction64, calculateHorizontalWeight64. cbv zeta.
  rewrite (sub_diag64 centerX Hx), (sub_diag64 centerY Hy), hypot_zero.
  rewrite (div_zero_sq64 radius Hz Hn), E, exp_zero. split; reflexivity.
Qed.

End HorizontalKernel64.

(** C8: [GaussFunction] is exp(-5 * (hypot(pointX - centerX,
    pointY - centerY) / radius)^2) and [calculateHorizontalWeight] is
    exp(-5 * (hypot(centerX - pointX, centerY - pointY) / radius)^2), each
    operation being the one on doubles; the two agree where the two calls of
    hypot return the same double.  On doubles, with exp(-0) = 1 and
    hypot(+0, +0) = +0, both are exactly 1 at a point on the axis of a
    cylinder whose centre is finite and whose radius is neither zero nor
    not-a-number. *)
Theorem C8_horizontal_weight_as_computed :
  (forall (D : Type) (H : Double D)
          (radius centerX centerY pointX pointY : D),
     GaussFunction radius centerX centerY pointX pointY
     = dexp (mul (lit (-5.0))
                 (pow2 (div (dhypot (sub pointX centerX)
                                    (sub pointY centerY))
                            radius)))
     /\ calculateHorizontalWeight pointX pointY radius centerX centerY
        = dexp (mul (lit (-5.0))
                    (pow2 (div (dhypot (sub centerX pointX)
                                       (sub centerY pointY))
                               radius)))
     /\ (dhypot (sub centerX pointX) (sub centerY pointY)
         = dhypot (sub pointX centerX) (sub pointY centerY) ->
         calculateHorizontalWeight pointX pointY radius centerX centerY
         = GaussFunction radius centerX centerY pointX pointY))
  /\ (forall (libm_exp : PrimFloat.float -> PrimFloat.float)
             (libm_hypot : PrimFloat.float -> PrimFloat.float
                           -> PrimFloat.float),
        libm_exp PrimFloat.neg_zero = dec 1 ->
        libm_hypot PrimFloat.zero PrimFloat.zero = PrimFloat.zero ->
        forall radius centerX centerY : PrimFloat.float,
        PrimFloat.is_finite centerX = true ->
        PrimFloat.is_finite centerY = true ->
        is_zero64 radius = false -> PrimFloat.is_nan radius = false ->
        GaussFunction (H:=binary64 libm_exp libm_hypot)
                      radius centerX centerY centerX centerY
        = dec 1
        /\ calculateHorizontalWeight (H:=binary64 libm_exp libm_hypot)
                                     centerX centerY radius centerX centerY
           = dec 1).
Proof.
  split.
  - intros D H radius centerX centerY pointX pointY.
    split; [reflexivity |]. split; [reflexivity |].
    intros Hhypot.
    unfold calculateHorizontalWeight, gauss, GaussFunction.
    rewrite Hhypot. reflexivity.
  - intros libm_exp libm_hypot He Hh radius centerX centerY Hx Hy Hz Hn.
    exact (horizontal_weight_on_axis64 libm_exp libm_hypot He Hh radius
             centerX centerY Hx Hy Hz Hn).
Qed.

(** ** The stopping rule of [meanShiftClassic] and
    [meanShiftClassicImproved] *)

Lemma euclid_guard64
  (libm_exp : PrimFloat.float -> PrimFloat.float)
  (libm_hypot : PrimFloat.float -> PrimFloat.float -> PrimFloat.float)
  (maxNum : Z) (st : Iter PrimFloat.float) :
  euclid_guard (H:=binary64 libm_exp libm_hypot) maxNum st
  = PrimFloat.ltb (dec 0.01) (displacement64 st)
    && (IterCounter st <? maxNum)%Z.
Proof. reflexivity. Qed.

Lemma euclid_guard_false64
  (libm_exp : PrimFloat.float -> PrimFloat.float)
  (libm_hypot : PrimFloat.float -> PrimFloat.float -> PrimFloat.float)
  (maxNum : Z) (st : Iter PrimFloat.float) :
  (IterCounter st < maxNum)%Z ->
  (euclid_guard (H:=binary64 libm_exp libm_hypot) maxNum st = false
   <-> PrimFloat.leb (displacement64 st) (dec 0.01) = true
       \/ PrimFloat.is_nan (displacement64 st) = true).
Proof.
  intros Hk. rewrite euclid_guard64.
  apply Z.ltb_lt in Hk. rewrite Hk, andb_true_r.
  apply ltb_false64. reflexivity.
Qed.

(** C4: in [meanShiftClassic] and [meanShiftClassicImproved] the body runs
    again exactly when, after the centroid update, the comparison
    sqrt(dx^2 + dy^2 + dz^2) > 0.01 on the computed doubles is true and the
    counter is below the maximum.  On doubles, with budget left, the loop
    ends exactly when the computed displacement is at most 0.01 or is
    not-a-number. *)
Theorem C4_euclidean_guard_as_computed :
  (forall (D : Type) (H : Double D) (pointCloud : list (Point D))
          (crownDiameter2TreeHeight crownHeight2TreeHeight : D)
          (maxNumCentroidsPerMode : Z) (fuel : nat) (c : Point D) (k : Z),
     let guard := euclid_guard maxNumCentroidsPerMode in
     let moved (st : Iter D) :=
       dsqrt (add (add (pow2 (sub (px (centroid st)) (px c)))
                       (pow2 (sub (py (centroid st)) (py c))))
                  (pow2 (sub (pz (centroid st)) (pz c)))) in
     let loop_step (body : Point D -> Z -> Iter D) :=
       let st := body c k in
       (guard st = true <->
        ltb (lit 0.01) (moved st) = true
        /\ (k + 1 < maxNumCentroidsPerMode)%Z)
       /\ ((k + 1 < maxNumCentroidsPerMode)%Z ->
           (guard st = false <-> ltb (lit 0.01) (moved st) = false))
       /\ do_while body guard (S fuel) c k
          = if guard st then
              match do_while body guard fuel (centroid st) (k + 1) with
              | Some (n, st') => Some (S n, st')
              | None => None
              end
            else Some (1%nat, st) in
     loop_step
       (mSC_body pointCloud crownDiameter2TreeHeight crownHeight2TreeHeight)
     /\ loop_step
          (mSCI_body pointCloud crownDiameter2TreeHeight
                     crownHeight2TreeHeight))
  /\ (forall (libm_exp : PrimFloat.float -> PrimFloat.float)
             (libm_hypot : PrimFloat.float -> PrimFloat.float
                           -> PrimFloat.float)
             (pointCloud : list (Point PrimFloat.float))
             (crownDiameter2TreeHeight crownHeight2TreeHeight
              : PrimFloat.float)
             (maxNumCentroidsPerMode : Z) (c : Point PrimFloat.float)
             (k : Z),
        let ends (st : Iter PrimFloat.float) :=
          euclid_guard (H:=binary64 libm_exp libm_hypot)
                       maxNumCentroidsPerMode st = false
          <-> PrimFloat.leb (displacement64 st) (dec 0.01) = true
              \/ PrimFloat.is_nan (displacement64 st) = true in
        (k + 1 < maxNumCentroidsPerMode)%Z ->
        ends (mSC_body (H:=binary64 libm_exp libm_hypot) pointCloud
                crownDiameter2TreeHeight crownHeight2TreeHeight c k)
        /\ ends (mSCI_body (H:=binary64 libm_exp libm_hypot) pointCloud
                   crownDiameter2TreeHeight crownHeight2TreeHeight c k)).
Proof.
  split.
  - intros D H pointCloud crownDiameter2TreeHeight crownHeight2TreeHeight
           maxNumCentroidsPerMode fuel c k.
    exact (euclid_guard_as_computed pointCloud crownDiameter2TreeHeight
             crownHeight2TreeHeight maxNumCentroidsPerMode fuel c k).
  - intros libm_exp libm_hypot pointCloud crownDiameter2TreeHeight
           crownHeight2TreeHeight maxNumCentroidsPerMode c k ends Hk.
    split.
    + exact (euclid_guard_false64 libm_exp libm_hypot maxNumCentroidsPerMode
               (mSC_body (H:=binary64 libm_exp libm_hypot) pointCloud
                  crownDiameter2TreeHeight crownHeight2TreeHeight c k) Hk).
    + exact (euclid_guard_false64 libm_exp libm_hypot maxNumCentroidsPerMode
               (mSCI_body (H:=binary64 libm_exp libm_hypot) pointCloud
                  crownDiameter2TreeHeight crownHeight2TreeHeight c k) Hk).
Qed.

(** ** A cylinder that admits nothing *)

Lemma euclid_guard_nowhere64
  (libm_exp : PrimFloat.float -> PrimFloat.float)
  (libm_hypot : PrimFloat.float -> PrimFloat.float -> PrimFloat.float)
  (maxNum : Z) (c : Point PrimFloat.float) (k : Z) :
  euclid_guard (H:=binary64 libm_exp libm_hypot) maxNum
               (mkIter nowhere64 c k)
  = false.
Proof.
  rewrite euclid_guard64. unfold displacement64, nowhere64.
  cbn [centroid old px py pz]. rewrite !sub_nan64. reflexivity.
Qed.

Lemma MSC_guard_nowhere64
  (libm_exp : PrimFloat.float -> PrimFloat.float)
  (libm_hypot : PrimFloat.float -> PrimFloat.float -> PrimFloat.float)
  (MaxIter : Z) (c : Point PrimFloat.float) (k : Z) :
  MSC_guard (H:=binary64 libm_exp libm_hypot) MaxIter (mkIter nowhere64 c k)
  = false.
Proof.
  unfold MSC_guard.
  cbn [binary64 lit of_int add sub mul div dabs pow2 dsqrt leb ltb
       centroid old IterCounter nowhere64 px py pz].
  rewrite !sub_nan64. reflexivity.
Qed.

(** X11: when the cylinder around a seed admits none of the rows the scan
    visits, the four sums stay zero, the centroid update divides zero by
    zero, and the per-seed loop of each of the three drivers ends after that
    one execution, whatever the budget, on a centroid whose three
    coordinates are not-a-number.  [MeanShift_Classical] visits the seed's
    row only, so its condition is on that row. *)
Theorem X11_an_empty_cylinder_gives_not_a_number
  (libm_exp : PrimFloat.float -> PrimFloat.float)
  (libm_hypot : PrimFloat.float -> PrimFloat.float -> PrimFloat.float)
  (pc : list (Point PrimFloat.float))
  (CD2TH_fac CH2TH_fac : PrimFloat.float) (MaxIter : Z)
  (UniformKernel : bool) (fuel i : nat) :
  let seed := row (H:=binary64 libm_exp libm_hypot) pc i in
  let radius :=
    PrimFloat.mul (PrimFloat.mul CD2TH_fac (pz seed)) (dec 0.5) in
  let height := PrimFloat.mul CH2TH_fac (pz seed) in
  let cylinderHeight := PrimFloat.mul height (dec 0.75) in
  let cylinderMiddleZ :=
    PrimFloat.add (pz seed)
      (PrimFloat.div (PrimFloat.mul cylinderHeight (dec 1.0)) (dec 6.0)) in
  (1 <= fuel)%nat ->
  (InCylinder (H:=binary64 libm_exp libm_hypot)
              (px seed) (py seed) (pz seed) radius height
              (px seed) (py seed) (pz seed) = false ->
   MSC_seed (H:=binary64 libm_exp libm_hypot) pc CD2TH_fac CH2TH_fac
            MaxIter UniformKernel fuel i
   = Some (1%nat, mkIter nowhere64 seed 1))
  /\ ((forall j, (j < length pc)%nat ->
         InCylinder (H:=binary64 libm_exp libm_hypot)
                    (px (row (H:=binary64 libm_exp libm_hypot) pc j)) (py (row (H:=binary64 libm_exp libm_hypot) pc j)) (pz (row (H:=binary64 libm_exp libm_hypot) pc j))
                    radius height (px seed) (py seed) (pz seed) = false) ->
      mSC_seed (H:=binary64 libm_exp libm_hypot) pc CD2TH_fac CH2TH_fac
               MaxIter fuel i
      = Some (1%nat, mkIter nowhere64 seed 1))
  /\ ((forall j, (j < length pc)%nat ->
         intersectsCylinder (H:=binary64 libm_exp libm_hypot)
                            (px (row (H:=binary64 libm_exp libm_hypot) pc j)) (py (row (H:=binary64 libm_exp libm_hypot) pc j)) (pz (row (H:=binary64 libm_exp libm_hypot) pc j))
                            radius cylinderHeight (px seed) (py seed)
                            cylinderMiddleZ = false) ->
      mSCI_seed (H:=binary64 libm_exp libm_hypot) pc CD2TH_fac CH2TH_fac
                MaxIter fuel i
      = Some (1%nat, mkIter nowhere64 seed 1)).
Proof.
  intros seed radius height cylinderHeight cylinderMiddleZ Hfuel.
  split; [| split].
  - intros Hout.
    assert (Hb : MSC_body (H:=binary64 libm_exp libm_hypot) pc CD2TH_fac
                          CH2TH_fac UniformKernel i seed 0
                 = mkIter nowhere64 seed 1).
    { rewrite (MSC_body_nothing (H:=binary64 libm_exp libm_hypot) pc
                 CD2TH_fac CH2TH_fac UniformKernel i seed 0 Hout).
      reflexivity. }
    unfold MSC_seed. fold seed. rewrite do_while_once; rewrite ?Hb;
      auto using MSC_guard_nowhere64.
  - intros Hout.
    assert (Hb : mSC_body (H:=binary64 libm_exp libm_hypot) pc CD2TH_fac
                          CH2TH_fac seed 0
                 = mkIter nowhere64 seed 1).
    { rewrite (mSC_body_nothing (H:=binary64 libm_exp libm_hypot) pc
                 CD2TH_fac CH2TH_fac seed 0 Hout).
      reflexivity. }
    unfold mSC_seed. fold seed. rewrite do_while_once; rewrite ?Hb;
      auto using euclid_guard_nowhere64.
  - intros Hout.
    assert (Hb : mSCI_body (H:=binary64 libm_exp libm_hypot) pc CD2TH_fac
                           CH2TH_fac seed 0
                 = mkIter nowhere64 seed 1).
    { rewrite (mSCI_body_nothing (H:=binary64 libm_exp libm_hypot) pc
                 CD2TH_fac CH2TH_fac seed 0 Hout).
      reflexivity. }
    unfold mSCI_seed. fold seed. rewrite do_while_once; rewrite ?Hb;
      auto using euclid_guard_nowhere64.
Qed.

(** The cloud of the one point (1, 2, -1), below the ground, with the
    uniform kernel of [MeanShift_Classical]: the cylinder has a negative
    height and does not hold the point. *)
Lemma X11_an_empty_cylinder_gives_not_a_number_witness :
  MSC_seed (H:=binary64_no_libm) point_below_ground64 (dec 0.6) (dec 0.5)
           200 true 200 0
  = Some (1%nat,
          mkIter nowhere64 (row (H:=binary64_no_libm) point_below_ground64 0)
                 1).
Proof.
  assert (Hfuel : (1 <= 200)%nat) by lia.
  pose proof (X11_an_empty_cylinder_gives_not_a_number
                (fun _ => PrimFloat.nan) (fun _ _ => PrimFloat.nan)
                point_below_ground64 (dec 0.6) (dec 0.5) 200%Z true 200%nat
                0%nat Hfuel) as [Hclassical _].
  apply Hclassical. vm_compute. reflexivity.
Defined.

(** ** Evaluations *)

(** The cylinder of radius 1 and height 0.2 around (0, 0, 0.2), and the point
    (0, 0, 0.1) on its bottom face: centerZ - height/2 is 0.1 without
    rounding.  [InCylinder] accepts the point and [intersectsCylinder]
    rejects it. *)
Lemma C6_counterexample :
  InCylinder (H:=binary64_no_libm) (dec 0) (dec 0) (dec 0.1) (dec 1)
             (dec 0.2) (dec 0) (dec 0) (dec 0.2) = true
  /\ intersectsCylinder (H:=binary64_no_libm) (dec 0) (dec 0) (dec 0.1)
       (dec 1) (dec 0.2) (dec 0) (dec 0) (dec 0.2) = false
  /\ PrimFloat.sub (dec 0.2) (PrimFloat.div (dec 0.2) (dec 2)) = dec 0.1.
Proof. repeat split; vm_compute; reflexivity. Qed.

Lemma bottom_face_any_libm
  (libm_exp : PrimFloat.float -> PrimFloat.float)
  (libm_hypot : PrimFloat.float -> PrimFloat.float -> PrimFloat.float) :
  InCylinder (H:=binary64 libm_exp libm_hypot) (dec 0) (dec 0) (dec 0.1)
             (dec 1) (dec 0.2) (dec 0) (dec 0) (dec 0.2) = true
  /\ intersectsCylinder (H:=binary64 libm_exp libm_hypot) (dec 0) (dec 0)
       (dec 0.1) (dec 1) (dec 0.2) (dec 0) (dec 0) (dec 0.2) = false.
Proof. split; vm_compute; reflexivity. Qed.

(** Height 8 around z = 10: the band is [8, 14] and its midpoint is 11.  At
    pointZ = 11.00000001, inside the band and not the midpoint,
    [EpanechnikovFunction] returns 1. *)
Lemma C7_counterexample :
  EpanechnikovFunction (H:=binary64_no_libm) (dec 8) (dec 10)
                       (dec 11.00000001) = dec 1
  /\ VerticalMask (H:=binary64_no_libm) (dec 8) (dec 10) (dec 11.00000001)
     = 1%Z
  /\ PrimFloat.add (dec 10) (PrimFloat.div (dec 8) (dec 8)) = dec 11
  /\ PrimFloat.eqb (dec 11.00000001) (dec 11) = false.
Proof. repeat split; vm_compute; reflexivity. Qed.

Lemma Epanechnikov_rounds_to_one_any_libm
  (libm_exp : PrimFloat.float -> PrimFloat.float)
  (libm_hypot : PrimFloat.float -> PrimFloat.float -> PrimFloat.float) :
  EpanechnikovFunction (H:=binary64 libm_exp libm_hypot) (dec 8) (dec 10)
                       (dec 11.00000001) = dec 1.
Proof. vm_compute. reflexivity. Qed.

(** [three_points64], all above the ground, with both ratios 1 and the
    uniform kernel: the mode [MeanShift_Classical] returns for the first
    point is one unit in the last place above the point's x, and not the
    point's x.  The one point (0, 0, [huge64]), above the ground, with both
    ratios 1 and the weighted kernel: height * 3 overflows, the vertical
    weight of the point is 0, the weight sum is 0 and the loop of
    [MeanShift_Classical] ends after one execution on a centroid that is
    not-a-number, for every library with exp(-0) = 1 and
    hypot(+0, +0) = +0. *)
Lemma C3_counterexample :
  forallb (fun p => PrimFloat.ltb PrimFloat.zero (pz p)) three_points64
  = true
  /\ (exists df,
        MeanShift_Classical (H:=binary64_no_libm) three_points64
                            (dec 1) (dec 1) 200 true 200 = Some df
        /\ nth_error (colX df) 0 = Some (dec 0.1)
        /\ nth_error (modeX df) 0 = Some (PrimFloat.next_up (dec 0.1))
        /\ PrimFloat.eqb (PrimFloat.next_up (dec 0.1)) (dec 0.1) = false)
  /\ PrimFloat.ltb PrimFloat.zero huge64 = true
  /\ (fun libm_exp libm_hypot =>
        sumP (MSC_scan
                (H:=binary64 (exp_at_zero libm_exp)
                             (hypot_at_zero libm_hypot))
                [mkPoint (dec 0) (dec 0) huge64] false 0
                (PrimFloat.mul (PrimFloat.mul (dec 1) huge64) (dec 0.5))
                (PrimFloat.mul (dec 1) huge64)
                (mkPoint (dec 0) (dec 0) huge64)))
     = (fun _ _ => PrimFloat.zero)
  /\ (fun libm_exp libm_hypot =>
        MSC_seed (H:=binary64 (exp_at_zero libm_exp)
                              (hypot_at_zero libm_hypot))
                 [mkPoint (dec 0) (dec 0) huge64] (dec 1) (dec 1) 200
                 false 200 0)
     = (fun _ _ =>
          Some (1%nat,
                mkIter nowhere64 (mkPoint (dec 0) (dec 0) huge64) 1)).
Proof.
  split; [vm_compute; reflexivity |].
  split.
  { eexists. split; [vm_compute; reflexivity |].
    repeat split; vm_compute; reflexivity. }
  repeat split; vm_compute; reflexivity.
Qed.

Lemma uniform_kernel_drifts_any_libm
  (libm_exp : PrimFloat.float -> PrimFloat.float)
  (libm_hypot : PrimFloat.float -> PrimFloat.float -> PrimFloat.float) :
  exists df,
    MeanShift_Classical (H:=binary64 libm_exp libm_hypot) three_points64
                        (dec 1) (dec 1) 200 true 200 = Some df
    /\ nth_error (modeX df) 0 = Some (PrimFloat.next_up (dec 0.1)).
Proof.
  eexists. split; [vm_compute; reflexivity |]. vm_compute. reflexivity.
Qed.

(** [point_below_ground64]: the cylinder around the point is empty, the
    centroid update divides zero by zero, and the loop of [meanShiftClassic]
    ends after its first execution, with 199 of its 200 left, on a state
    whose displacement is not-a-number: it is neither above 0.01 nor at
    most 0.01. *)
Lemma C4_counterexample :
  mSC_seed (H:=binary64_no_libm) point_below_ground64 (dec 0.6) (dec 0.5)
           200 200 0
  = Some (1%nat, state_below_ground64)
  /\ euclid_guard (H:=binary64_no_libm) 200 state_below_ground64 = false
  /\ (IterCounter state_below_ground64 < 200)%Z
  /\ PrimFloat.leb (displacement64 state_below_ground64) (dec 0.01) = false
  /\ PrimFloat.ltb (dec 0.01) (displacement64 state_below_ground64) = false
  /\ PrimFloat.is_nan (displacement64 state_below_ground64) = true.
Proof. repeat split; vm_compute; reflexivity. Qed.

Lemma point_below_ground_any_libm
  (libm_exp : PrimFloat.float -> PrimFloat.float)
  (libm_hypot : PrimFloat.float -> PrimFloat.float -> PrimFloat.float) :
  mSC_seed (H:=binary64 libm_exp libm_hypot) point_below_ground64
           (dec 0.6) (dec 0.5) 200 200 0
  = Some (1%nat, state_below_ground64).
Proof. vm_compute. reflexivity. Qed.

(** The cylinder of radius 1 around the axis through (0, 0), and the point
    ([tiny64], 0), off the axis: the square of the relative distance
    underflows to zero, and [GaussFunction] and [calculateHorizontalWeight]
    call exp at -0, as they do for the point (0, 0) on the axis.  Whatever
    exp returns there, the weight of the point off the axis is the weight of
    the point on the axis; with exp(-0) = 1 it is 1. *)
Lemma C8_counterexample :
  (fun libm_exp libm_hypot =>
     GaussFunction (H:=binary64 libm_exp (hypot_on_axis libm_hypot))
                   (dec 1) (dec 0) (dec 0) tiny64 (dec 0))
  = (fun libm_exp libm_hypot =>
       GaussFunction (H:=binary64 libm_exp (hypot_on_axis libm_hypot))
                     (dec 1) (dec 0) (dec 0) (dec 0) (dec 0))
  /\ (fun libm_exp libm_hypot =>
        calculateHorizontalWeight
          (H:=binary64 libm_exp (hypot_on_axis libm_hypot))
          tiny64 (dec 0) (dec 1) (dec 0) (dec 0))
     = (fun libm_exp libm_hypot =>
          calculateHorizontalWeight
            (H:=binary64 libm_exp (hypot_on_axis libm_hypot))
            (dec 0) (dec 0) (dec 1) (dec 0) (dec 0))
  /\ (fun libm_exp libm_hypot =>
        GaussFunction (H:=binary64 libm_exp (hypot_on_axis libm_hypot))
                      (dec 1) (dec 0) (dec 0) tiny64 (dec 0))
     = (fun libm_exp _ => libm_exp PrimFloat.neg_zero)
  /\ (fun libm_exp libm_hypot =>
        GaussFunction
          (H:=binary64 (exp_at_zero libm_exp) (hypot_on_axis libm_hypot))
          (dec 1) (dec 0) (dec 0) tiny64 (dec 0))
     = (fun _ _ => dec 1)
  /\ PrimFloat.eqb tiny64 (dec 0) = false
  /\ PrimFloat.ltb (dec 0) tiny64 = true.
Proof. repeat split; vm_compute; reflexivity. Qed.

(** ** The cloud of one point *)

(** On the cloud of the one point (0, 0, 10) with ratios 0.6 and 0.5, a
    budget of 200 and a library with exp(-0) = 1 and hypot(+0, +0) = +0, on
    doubles: the loop of [MeanShift_Classical] executes its body 200 times,
    with either kernel; those of [meanShiftClassic] and
    [meanShiftClassicImproved] execute theirs once and end one unit in the
    last place above the point's z. *)
Lemma one_point_cloud64
  (libm_exp : PrimFloat.float -> PrimFloat.float)
  (libm_hypot : PrimFloat.float -> PrimFloat.float -> PrimFloat.float) :
  libm_exp PrimFloat.neg_zero = dec 1 ->
  libm_hypot PrimFloat.zero PrimFloat.zero = PrimFloat.zero ->
  let ended :=
    mkIter (mkPoint PrimFloat.zero PrimFloat.zero
                    (PrimFloat.next_up (dec 10)))
           (mkPoint (dec 0) (dec 0) (dec 10)) 1 in
  (forall UniformKernel, exists st,
     MSC_seed (H:=binary64 libm_exp libm_hypot) one_point64 (dec 0.6)
              (dec 0.5) 200 UniformKernel 200 0
     = Some (200%nat, st))
  /\ mSC_seed (H:=binary64 libm_exp libm_hypot) one_point64 (dec 0.6)
              (dec 0.5) 200 200 0
     = Some (1%nat, ended)
  /\ mSCI_seed (H:=binary64 libm_exp libm_hypot) one_point64 (dec 0.6)
               (dec 0.5) 200 200 0
     = Some (1%nat, ended).
Proof.
  intros He Hh ended. unfold ended.
  rewrite (libm_at_zero libm_exp libm_hypot He Hh).
  split; [| split].
  - intros [|]; eexists; vm_compute; reflexivity.
  - vm_compute. reflexivity.
  - vm_compute. reflexivity.
Qed.

(** C5 at the cloud of the one point (0, 0, 10) with ratios 0.6 and 0.5 and
    the default budget of 200: the per-seed loop of [MeanShift_Classical]
    executes its body 200 times, where those of [meanShiftClassic] and
    [meanShiftClassicImproved] execute theirs once.  The counts are the same
    in exact arithmetic and on doubles, there for every library with
    exp(-0) = 1 and hypot(+0, +0) = +0 and, for [MeanShift_Classical], with
    either kernel. *)
Theorem C5_one_point_cloud :
  (exists st,
     MSC_seed one_point 0.6 0.5 200 false 200 0 = Some (200%nat, st))
  /\ (exists st, mSC_seed one_point 0.6 0.5 200 200 0 = Some (1%nat, st))
  /\ (exists st, mSCI_seed one_point 0.6 0.5 200 200 0 = Some (1%nat, st))
  /\ (forall (libm_exp : PrimFloat.float -> PrimFloat.float)
             (libm_hypot : PrimFloat.float -> PrimFloat.float
                           -> PrimFloat.float),
        libm_exp PrimFloat.neg_zero = dec 1 ->
        libm_hypot PrimFloat.zero PrimFloat.zero = PrimFloat.zero ->
        (forall UniformKernel, exists st,
           MSC_seed (H:=binary64 libm_exp libm_hypot) one_point64 (dec 0.6)
                    (dec 0.5) 200 UniformKernel 200 0
           = Some (200%nat, st))
        /\ (exists st,
              mSC_seed (H:=binary64 libm_exp libm_hypot) one_point64
                       (dec 0.6) (dec 0.5) 200 200 0
              = Some (1%nat, st))
        /\ (exists st,
              mSCI_seed (H:=binary64 libm_exp libm_hypot) one_point64
                        (dec 0.6) (dec 0.5) 200 200 0
              = Some (1%nat, st))).
Proof.
  assert (Hz : 0 < pz (mkPoint 0 0 10)) by (cbn [pz]; lra).
  assert (Hcd : 0 < 0.6) by lra.
  assert (Hch : 0 < 0.5) by lra.
  unfold one_point. split; [| split; [| split]].
  - eexists. rewrite MSC_seed_one_point; auto; lia.
  - eexists. apply mSC_seed_one_point; auto; lia.
  - eexists. apply mSCI_seed_one_point; auto; lia.
  - intros libm_exp libm_hypot He Hh.
    destruct (one_point_cloud64 libm_exp libm_hypot He Hh)
      as [Hclassical [Hclassic Himproved]].
    split; [exact Hclassical |]. split; eexists; eassumption.
Qed.
